(** * World queries of the server: sector tree, entity linking, area
      queries and move clipping (codemp/server/sv_world.cpp)

    The development embeds the functions of [sv_world.cpp] as Rocq
    functions over an explicit server state and proves properties of the
    sector tree, of linking and unlinking, of [SV_AreaEntities] and of
    the aggregation done by [SV_ClipMoveToEntities] and [SV_Trace].

    Conventions of the embedding:
    - C [int] values are [Z]; bit tests use [Z.land], [Z.lor], [Z.shiftl].
    - C [float] values range over a type [F] with the operations of the
      class [FloatOps]; the order laws that hold of floats other than NaN
      are the class [FloatLaws], and are assumed only where a proof uses
      them.
    - constants of headers outside this file are the fields of
      [Constants]; the collision model of qcommon, the bounds helper of
      q_math and the Ghoul2 collision API are the fields of [Oracles].
    - the singly linked chain [entities / nextEntityInWorldSector] of a
      sector is the list of entity numbers in chain order, head first.
    - [Com_DPrintf] developer output is not modelled; the [Com_Printf]
      warning of [SV_UnlinkEntity] is appended to [console]. *)

From stdpp Require Import gmap list strings.
From Stdlib Require Import ZArith QArith Lqa Lia Bool List Permutation.
Local Close Scope Q_scope.
Local Open Scope Z_scope.

(* ================================================================= *)
(** ** Scalars and vectors *)

(** Operations of C [float] used by the file. [f_of_Z] is the conversion
    of an integer constant, [ftrunc] the conversion of a float to [int],
    [fhalf] the literal [0.5]. *)
Class FloatOps (F : Type) : Type := {
  f_of_Z : Z -> F;
  fhalf : F;
  fadd : F -> F -> F;
  fsub : F -> F -> F;
  fmul : F -> F -> F;
  fdiv : F -> F -> F;
  fneg : F -> F;
  ftrunc : F -> Z;
  fltb : F -> F -> bool;
  fgtb : F -> F -> bool;
  fleb : F -> F -> bool;
  feqb : F -> F -> bool
}.

(** Laws of the comparisons on floats that are not NaN: a total order
    with [0 < 1]. *)
Class FloatLaws {F : Type} (ops : FloatOps F) : Prop := {
  fgtb_fltb : forall a b : F, fgtb a b = fltb b a;
  fleb_fltb : forall a b : F, fleb a b = negb (fltb b a);
  feqb_fltb : forall a b : F, feqb a b = negb (fltb a b) && negb (fltb b a);
  fltb_irrefl : forall a : F, fltb a a = false;
  fltb_trans : forall a b c : F,
      fltb a b = true -> fltb b c = true -> fltb a c = true;
  fltb_cotrans : forall a b c : F,
      fltb a b = true -> fltb a c = true \/ fltb c b = true;
  fltb_0_1 : fltb (f_of_Z 0) (f_of_Z 1) = true
}.

(** [vec3_t]: three floats indexed 0, 1, 2. *)
Record vec3_t (F : Type) : Type := Vec3 { v0 : F; v1 : F; v2 : F }.
Arguments Vec3 {F} _ _ _.
Arguments v0 {F} _.
Arguments v1 {F} _.
Arguments v2 {F} _.

(** [v[i]]; the sector code only indexes with 0 and 1, the other uses
    are written out per component. *)
Definition vget {F : Type} (v : vec3_t F) (i : Z) : F :=
  if i =? 0 then v0 v else if i =? 1 then v1 v else v2 v.

(** [v[i] = x] *)
Definition vset {F : Type} (v : vec3_t F) (i : Z) (x : F) : vec3_t F :=
  if i =? 0 then Vec3 x (v1 v) (v2 v)
  else if i =? 1 then Vec3 (v0 v) x (v2 v)
  else Vec3 (v0 v) (v1 v) x.

Definition vmap2 {F : Type} (f : F -> F -> F) (a b : vec3_t F) : vec3_t F :=
  Vec3 (f (v0 a) (v0 b)) (f (v1 a) (v1 b)) (f (v2 a) (v2 b)).

(* ================================================================= *)
(** ** Constants of other headers *)

Record Constants : Type := {
  MAX_GENTITIES : Z;
  ENTITYNUM_NONE : Z;
  ENTITYNUM_WORLD : Z;
  MAX_ENT_CLUSTERS : Z;
  SOLID_BMODEL : Z;
  CONTENTS_SOLID : Z;
  CONTENTS_BODY : Z;
  CONTENTS_LIGHTSABER : Z;
  CONTENTS_NOSHOT : Z;
  MASK_SHOT : Z;
  SVF_CAPSULE : Z;
  SVF_OWNERNOTSHARED : Z;
  ET_MISSILE : Z;
  EF_DEAD : Z;
  MAX_CLIENTS : Z;
  MAX_G2_COLLISIONS : nat;
  G2TRFLAG_DOGHOULTRACE : Z;
  G2TRFLAG_GETSURFINDEX : Z;
  G2TRFLAG_THICK : Z;
  G2TRFLAG_HITCORPSES : Z
}.

(** Constants defined in sv_world.cpp itself. *)
Definition AREA_DEPTH : Z := 4.
Definition AREA_NODES : Z := 64.
Definition MAX_TOTAL_ENT_LEAFS : Z := 128.

(* ================================================================= *)
(** ** Entities *)

(** The fields of [entityState_t] the file reads or writes. *)
Record entityState_t : Type := {
  number : Z;
  eType : Z;
  eFlags : Z;
  solid : Z;
  modelindex : Z
}.

(** The fields of [entityShared_t] the file reads or writes. *)
Record entityShared_t (F : Type) : Type := {
  linked : bool;
  linkcount : Z;
  svFlags : Z;
  bmodel : bool;
  mins : vec3_t F;
  maxs : vec3_t F;
  contents : Z;
  absmin : vec3_t F;
  absmax : vec3_t F;
  currentOrigin : vec3_t F;
  currentAngles : vec3_t F;
  ownerNum : Z
}.
Arguments linked {F} _.
Arguments linkcount {F} _.
Arguments svFlags {F} _.
Arguments bmodel {F} _.
Arguments mins {F} _.
Arguments maxs {F} _.
Arguments contents {F} _.
Arguments absmin {F} _.
Arguments absmax {F} _.
Arguments currentOrigin {F} _.
Arguments currentAngles {F} _.
Arguments ownerNum {F} _.

(** [sharedEntityMapper_t]: the state [s], the shared part [r], the
    Ghoul2 handle as read from the game module (0 when there is none)
    and the base angles [s->apos.trBase] used for clients. *)
Record sharedEntityMapper_t (F : Type) : Type := {
  s : entityState_t;
  r : entityShared_t F;
  ghoul2 : Z;
  apos_trBase : vec3_t F
}.
Arguments s {F} _.
Arguments r {F} _.
Arguments ghoul2 {F} _.
Arguments apos_trBase {F} _.

(** [svEntity_t]. [worldSector] is the slot of the sector in
    [sv_worldSectors], [None] for the null pointer; the position in the
    chain of that sector is kept by the sector's list. *)
Record svEntity_t : Type := {
  worldSector : option Z;
  numClusters : Z;
  clusternums : list Z;
  lastCluster : Z;
  areanum : Z;
  areanum2 : Z
}.

(* ================================================================= *)
(** ** Sectors *)

(** [worldSector_t]. The field [axis] is the tag: [-1] marks a leaf,
    whose children are null. [SectorLeaf slot dist entities] is a node
    with [axis = -1]; [SectorNode slot axis dist child0 child1 entities]
    a node with children. [slot] is the index in [sv_worldSectors]. *)
Inductive worldSector_t (F : Type) : Type :=
| SectorLeaf (slot : Z) (dist : F) (entities : list Z)
| SectorNode (slot : Z) (axis : Z) (dist : F)
             (child0 child1 : worldSector_t F) (entities : list Z).
Arguments SectorLeaf {F} _ _ _.
Arguments SectorNode {F} _ _ _ _ _ _.

Definition sector_slot {F} (n : worldSector_t F) : Z :=
  match n with SectorLeaf k _ _ => k | SectorNode k _ _ _ _ _ => k end.

Definition sector_axis {F} (n : worldSector_t F) : Z :=
  match n with SectorLeaf _ _ _ => -1 | SectorNode _ a _ _ _ _ => a end.

Definition sector_dist {F} (n : worldSector_t F) : F :=
  match n with SectorLeaf _ d _ => d | SectorNode _ _ d _ _ _ => d end.

Definition sector_entities {F} (n : worldSector_t F) : list Z :=
  match n with SectorLeaf _ _ l => l | SectorNode _ _ _ _ _ l => l end.

(** Number of nodes of a tree. *)
Fixpoint sector_count {F} (n : worldSector_t F) : Z :=
  match n with
  | SectorLeaf _ _ _ => 1
  | SectorNode _ _ _ c0 c1 _ => 1 + sector_count c0 + sector_count c1
  end.

(** Slots of a tree, in the order the nodes are created. *)
Fixpoint sector_slots {F} (n : worldSector_t F) : list Z :=
  match n with
  | SectorLeaf k _ _ => [k]
  | SectorNode k _ _ c0 c1 _ => k :: sector_slots c0 ++ sector_slots c1
  end.

(** All entity numbers chained in some sector of the tree. *)
Fixpoint sector_members {F} (n : worldSector_t F) : list Z :=
  match n with
  | SectorLeaf _ _ l => l
  | SectorNode _ _ _ c0 c1 l => l ++ sector_members c0 ++ sector_members c1
  end.

Section Build.
Context {F : Type} {ops : FloatOps F}.

(** [SV_CreateworldSector], with the counter [sv_numworldSectors]
    threaded. The C recursion stops when [depth == AREA_DEPTH]; [fuel]
    bounds it here and the array bound [AREA_NODES] is checked: the
    result is [None] when the fuel runs out or the array would
    overflow. The node is zeroed by [SV_ClearWorld] before, so a leaf
    keeps [dist = 0] and every chain is empty. *)
Fixpoint SV_CreateworldSector (fuel : nat) (depth : Z)
         (mins_ maxs_ : vec3_t F) (num : Z)
  : option (worldSector_t F * Z) :=
  match fuel with
  | O => None
  | S fuel' =>
    if AREA_NODES <=? num then None else
    let anode := num in
    let num := num + 1 in
    if depth =? AREA_DEPTH then
      Some (SectorLeaf anode (f_of_Z 0) [], num)
    else
      let size := vmap2 fsub maxs_ mins_ in
      let axis := if fgtb (v0 size) (v1 size) then 0 else 1 in
      let dist := fmul fhalf (fadd (vget maxs_ axis) (vget mins_ axis)) in
      let mins1 := mins_ in
      let mins2 := vset mins_ axis dist in
      let maxs1 := vset maxs_ axis dist in
      let maxs2 := maxs_ in
      match SV_CreateworldSector fuel' (depth + 1) mins2 maxs2 num with
      | None => None
      | Some (c0, num) =>
        match SV_CreateworldSector fuel' (depth + 1) mins1 maxs1 num with
        | None => None
        | Some (c1, num) => Some (SectorNode anode axis dist c0 c1 [], num)
        end
      end
  end.
End Build.

(* ================================================================= *)
(** ** Traces, collision handles and the external collaborators *)

(** The fields of [trace_t] the file reads or writes; the remaining
    fields travel with the structure and are never inspected here. *)
Record trace_t (F : Type) : Type := {
  allsolid : bool;
  startsolid : bool;
  fraction : F;
  endpos : vec3_t F;
  plane_normal : vec3_t F;
  surfaceFlags : Z;
  trace_contents : Z;
  entityNum : Z
}.
Arguments Build_trace_t {F} _ _ _ _ _ _ _ _.
Arguments allsolid {F} _.
Arguments startsolid {F} _.
Arguments fraction {F} _.
Arguments endpos {F} _.
Arguments plane_normal {F} _.
Arguments surfaceFlags {F} _.
Arguments trace_contents {F} _.
Arguments entityNum {F} _.

(** What a [clipHandle_t] returned by [SV_ClipHandleForEntity] stands
    for: an inline model of the map, or the temporary box or capsule
    model set up from the given bounds. *)
Inductive clipHandle_t (F : Type) : Type :=
| CM_InlineModel (index : Z)
| CM_TempBoxModel (mins_ maxs_ : vec3_t F) (capsule : bool).
Arguments CM_InlineModel {F} _.
Arguments CM_TempBoxModel {F} _ _ _.

(** One entry of a [G2Trace_t]. *)
Record CollisionRecord_t (F : Type) : Type := {
  mEntityNum : Z;
  mCollisionPosition : vec3_t F;
  mCollisionNormal : vec3_t F;
  mSurfaceIndex : Z
}.
Arguments mEntityNum {F} _.
Arguments mCollisionPosition {F} _.
Arguments mCollisionNormal {F} _.
Arguments mSurfaceIndex {F} _.

(** The functions of other modules the file calls. [CM_BoxLeafnums]
    returns the leafs found (at most the list size asked for) and the
    last leaf; [CM_BoxTrace] is always called on model 0, the world;
    [G2API_CollisionDetect] stands for both the cached and the plain
    entry point of the renderer, which fill the same [G2Trace_t];
    [SV_GentityMapped] tells whether [SV_GentityMapperNum] yields an
    entity with a shared part for a number, the test made on the pass
    entity. *)
Record Oracles (F : Type) : Type := {
  SV_GentityMapped : Z -> bool;
  CM_WorldBounds : vec3_t F * vec3_t F;
  CM_BoxLeafnums : vec3_t F -> vec3_t F -> Z -> list Z * Z;
  CM_LeafArea : Z -> Z;
  CM_LeafCluster : Z -> Z;
  RadiusFromBounds : vec3_t F -> vec3_t F -> F;
  CM_BoxTrace :
    vec3_t F -> vec3_t F -> vec3_t F -> vec3_t F -> Z -> Z -> trace_t F;
  CM_TransformedBoxTrace :
    vec3_t F -> vec3_t F -> vec3_t F -> vec3_t F -> clipHandle_t F -> Z ->
    vec3_t F -> vec3_t F -> Z -> trace_t F;
  G2API_CollisionDetect :
    sharedEntityMapper_t F -> vec3_t F -> vec3_t F -> vec3_t F -> Z -> F ->
    list (CollisionRecord_t F)
}.
Arguments SV_GentityMapped {F} _ _.
Arguments CM_WorldBounds {F} _.
Arguments CM_BoxLeafnums {F} _ _ _ _.
Arguments CM_LeafArea {F} _ _.
Arguments CM_LeafCluster {F} _ _.
Arguments RadiusFromBounds {F} _ _ _.
Arguments CM_BoxTrace {F} _ _ _ _ _ _ _.
Arguments CM_TransformedBoxTrace {F} _ _ _ _ _ _ _ _ _ _.
Arguments G2API_CollisionDetect {F} _ _ _ _ _ _ _.

(* ================================================================= *)
(** ** The server state seen by the file *)

Record world (F : Type) : Type := {
  sv_worldSectors : worldSector_t F;
  sv_numworldSectors : Z;
  gentities : gmap Z (sharedEntityMapper_t F);
  svEntities : gmap Z svEntity_t;
  console : list string
}.
Arguments Build_world {F} _ _ _ _ _.
Arguments sv_worldSectors {F} _.
Arguments sv_numworldSectors {F} _.
Arguments gentities {F} _.
Arguments svEntities {F} _.
Arguments console {F} _.

(** The chain of the sector stored at [slot], if the tree has it. *)
Fixpoint sector_lookup {F} (slot : Z) (n : worldSector_t F)
  : option (list Z) :=
  match n with
  | SectorLeaf k _ l => if k =? slot then Some l else None
  | SectorNode k _ _ c0 c1 l =>
    if k =? slot then Some l
    else match sector_lookup slot c0 with
         | Some l' => Some l'
         | None => sector_lookup slot c1
         end
  end.

(** [ws->entities = l] for the sector stored at [slot]. *)
Fixpoint sector_store {F} (slot : Z) (l' : list Z) (n : worldSector_t F)
  : worldSector_t F :=
  match n with
  | SectorLeaf k d l => if k =? slot then SectorLeaf k d l' else n
  | SectorNode k a d c0 c1 l =>
    if k =? slot then SectorNode k a d c0 c1 l'
    else SectorNode k a d (sector_store slot l' c0) (sector_store slot l' c1) l
  end.

Section World.
Context {F : Type} {ops : FloatOps F} (K : Constants) (O : Oracles F).

Definition vec3_origin : vec3_t F := Vec3 (f_of_Z 0) (f_of_Z 0) (f_of_Z 0).

(** A zeroed entity, as the arrays are before the game fills them. *)
Definition zero_gentity : sharedEntityMapper_t F :=
  {| s := {| number := 0; eType := 0; eFlags := 0; solid := 0;
             modelindex := 0 |};
     r := {| linked := false; linkcount := 0; svFlags := 0;
             bmodel := false; mins := vec3_origin; maxs := vec3_origin;
             contents := 0; absmin := vec3_origin; absmax := vec3_origin;
             currentOrigin := vec3_origin; currentAngles := vec3_origin;
             ownerNum := 0 |};
     ghoul2 := 0;
     apos_trBase := vec3_origin |}.

Definition zero_svEntity : svEntity_t :=
  {| worldSector := None; numClusters := 0; clusternums := [];
     lastCluster := 0; areanum := 0; areanum2 := 0 |}.

(** [SV_GentityMapperNum] and [SV_SvEntityForGentityMapper] *)
Definition SV_GentityMapperNum (w : world F) (num : Z)
  : sharedEntityMapper_t F :=
  default zero_gentity (gentities w !! num).

Definition SV_SvEntityForGentityMapper (w : world F) (num : Z)
  : svEntity_t :=
  default zero_svEntity (svEntities w !! num).

(** Field updates *)
Definition set_linked (b : bool) (g : sharedEntityMapper_t F)
  : sharedEntityMapper_t F :=
  {| s := s g;
     r := {| linked := b; linkcount := linkcount (r g);
             svFlags := svFlags (r g); bmodel := bmodel (r g);
             mins := mins (r g); maxs := maxs (r g);
             contents := contents (r g); absmin := absmin (r g);
             absmax := absmax (r g);
             currentOrigin := currentOrigin (r g);
             currentAngles := currentAngles (r g);
             ownerNum := ownerNum (r g) |};
     ghoul2 := ghoul2 g;
     apos_trBase := apos_trBase g |}.

Definition set_linkcount (c : Z) (g : sharedEntityMapper_t F)
  : sharedEntityMapper_t F :=
  {| s := s g;
     r := {| linked := linked (r g); linkcount := c;
             svFlags := svFlags (r g); bmodel := bmodel (r g);
             mins := mins (r g); maxs := maxs (r g);
             contents := contents (r g); absmin := absmin (r g);
             absmax := absmax (r g);
             currentOrigin := currentOrigin (r g);
             currentAngles := currentAngles (r g);
             ownerNum := ownerNum (r g) |};
     ghoul2 := ghoul2 g;
     apos_trBase := apos_trBase g |}.

Definition set_absbox (lo hi : vec3_t F) (g : sharedEntityMapper_t F)
  : sharedEntityMapper_t F :=
  {| s := s g;
     r := {| linked := linked (r g); linkcount := linkcount (r g);
             svFlags := svFlags (r g); bmodel := bmodel (r g);
             mins := mins (r g); maxs := maxs (r g);
             contents := contents (r g); absmin := lo; absmax := hi;
             currentOrigin := currentOrigin (r g);
             currentAngles := currentAngles (r g);
             ownerNum := ownerNum (r g) |};
     ghoul2 := ghoul2 g;
     apos_trBase := apos_trBase g |}.

Definition set_solid (v : Z) (g : sharedEntityMapper_t F)
  : sharedEntityMapper_t F :=
  {| s := {| number := number (s g); eType := eType (s g);
             eFlags := eFlags (s g); solid := v;
             modelindex := modelindex (s g) |};
     r := r g;
     ghoul2 := ghoul2 g;
     apos_trBase := apos_trBase g |}.

Definition set_worldSector (ws : option Z) (e : svEntity_t) : svEntity_t :=
  {| worldSector := ws; numClusters := numClusters e;
     clusternums := clusternums e; lastCluster := lastCluster e;
     areanum := areanum e; areanum2 := areanum2 e |}.

Definition put_gentity (num : Z) (g : sharedEntityMapper_t F) (w : world F)
  : world F :=
  Build_world (sv_worldSectors w) (sv_numworldSectors w)
              (<[num := g]> (gentities w)) (svEntities w) (console w).

Definition put_svEntity (num : Z) (e : svEntity_t) (w : world F) : world F :=
  Build_world (sv_worldSectors w) (sv_numworldSectors w)
              (gentities w) (<[num := e]> (svEntities w)) (console w).

Definition put_sectors (t : worldSector_t F) (w : world F) : world F :=
  Build_world t (sv_numworldSectors w) (gentities w) (svEntities w)
              (console w).

Definition Com_Printf (msg : string) (w : world F) : world F :=
  Build_world (sv_worldSectors w) (sv_numworldSectors w) (gentities w)
              (svEntities w) (console w ++ [msg]).

(** [SV_ClearWorld]: the sectors are zeroed, the counter reset and the
    tree built from the bounds of the map. The entity arrays are not
    touched. The result is [None] only if [SV_CreateworldSector] fails. *)
Definition SV_ClearWorld (w : world F) : option (world F) :=
  let '(mins_, maxs_) := CM_WorldBounds O in
  match SV_CreateworldSector (Z.to_nat AREA_NODES) 0 mins_ maxs_ 0 with
  | Some (t, num) =>
    Some (Build_world t num (gentities w) (svEntities w) (console w))
  | None => None
  end.

(** The loop of [SV_UnlinkEntity] looking for the entity whose
    [nextEntityInWorldSector] is [ent]; [l] is the chain from [scan]. *)
Fixpoint unlink_scan (ent : Z) (l : list Z) : option (list Z) :=
  match l with
  | scan :: tl =>
    match tl with
    | next :: rest =>
      if next =? ent then Some (scan :: rest)
      else option_map (cons scan) (unlink_scan ent tl)
    | [] => None
    end
  | [] => None
  end.

(** The chain of a sector after the removal of [ent], [None] when the
    entity is not found in it. *)
Definition unlink_chain (ent : Z) (l : list Z) : option (list Z) :=
  match l with
  | head :: tl => if head =? ent then Some tl else unlink_scan ent l
  | [] => None
  end.

(** [SV_UnlinkEntity] *)
Definition SV_UnlinkEntity (num : Z) (w : world F) : world F :=
  let ent := SV_SvEntityForGentityMapper w num in
  let w := put_gentity num (set_linked false (SV_GentityMapperNum w num)) w in
  match worldSector ent with
  | None => w
  | Some ws =>
    let w := put_svEntity num (set_worldSector None ent) w in
    let chain := default [] (sector_lookup ws (sv_worldSectors w)) in
    match unlink_chain num chain with
    | Some chain' => put_sectors (sector_store ws chain' (sv_worldSectors w)) w
    | None =>
      Com_Printf "WARNING: SV_UnlinkEntity: not found in worldSector" w
    end
  end.

(** The clamp of [SV_LinkEntity]: [if (i<1) i = 1; if (i>255) i = 255]. *)
Definition clamp_1_255 (i : Z) : Z :=
  let i := if i <? 1 then 1 else i in
  if 255 <? i then 255 else i.

(** The size code stored in [s->solid] by [SV_LinkEntity]. *)
Definition encode_solid (g : sharedEntityMapper_t F) : Z :=
  if bmodel (r g) then SOLID_BMODEL K
  else if negb (Z.land (contents (r g))
                       (Z.lor (CONTENTS_SOLID K) (CONTENTS_BODY K)) =? 0)
  then
    let i := clamp_1_255 (ftrunc (v0 (maxs (r g)))) in
    let j := clamp_1_255 (ftrunc (fneg (v2 (mins (r g))))) in
    let k := clamp_1_255 (ftrunc (fadd (v2 (maxs (r g))) (f_of_Z 32))) in
    let packed := Z.lor (Z.lor (Z.shiftl k 16) (Z.shiftl j 8)) i in
    if packed =? SOLID_BMODEL K
    then Z.lor (Z.lor (Z.shiftl k 16) (Z.shiftl j 8)) (i - 1)
    else packed
  else 0.

(** A float used as a condition: true unless it compares equal to 0. *)
Definition fnonzero (x : F) : bool := negb (feqb x (f_of_Z 0)).

(** The absolute box set by [SV_LinkEntity], the epsilon included. *)
Definition link_absbox (g : sharedEntityMapper_t F) : vec3_t F * vec3_t F :=
  let origin := currentOrigin (r g) in
  let angles := currentAngles (r g) in
  let '(lo, hi) :=
    if bmodel (r g) &&
       (fnonzero (v0 angles) || fnonzero (v1 angles) || fnonzero (v2 angles))
    then
      let max := RadiusFromBounds O (mins (r g)) (maxs (r g)) in
      (Vec3 (fsub (v0 origin) max) (fsub (v1 origin) max)
            (fsub (v2 origin) max),
       Vec3 (fadd (v0 origin) max) (fadd (v1 origin) max)
            (fadd (v2 origin) max))
    else
      (vmap2 fadd origin (mins (r g)), vmap2 fadd origin (maxs (r g))) in
  (Vec3 (fsub (v0 lo) (f_of_Z 1)) (fsub (v1 lo) (f_of_Z 1))
        (fsub (v2 lo) (f_of_Z 1)),
   Vec3 (fadd (v0 hi) (f_of_Z 1)) (fadd (v1 hi) (f_of_Z 1))
        (fadd (v2 hi) (f_of_Z 1))).

(** The loop setting [areanum] and [areanum2] from the leafs. *)
Definition link_areas (leafs : list Z) : Z * Z :=
  fold_left
    (fun '(a1, a2) leaf =>
       let area := CM_LeafArea O leaf in
       if negb (area =? -1) then
         if negb (a1 =? -1) && negb (a1 =? area) then (a1, area)
         else (area, a2)
       else (a1, a2))
    leafs (-1, -1).

(** The loop storing the clusters: [acc] is the part of [clusternums]
    written so far, in reverse; the result is the clusters stored and
    whether the loop was left by [break]. *)
Fixpoint link_clusters (leafs : list Z) (acc : list Z) : list Z * bool :=
  match leafs with
  | [] => (rev acc, false)
  | leaf :: rest =>
    let cluster := CM_LeafCluster O leaf in
    if negb (cluster =? -1) then
      let acc := cluster :: acc in
      if Z.of_nat (length acc) =? MAX_ENT_CLUSTERS K then (rev acc, true)
      else link_clusters rest acc
    else link_clusters rest acc
  end.

(** The loop of [SV_LinkEntity] finding the first sector the box
    crosses; the result is the slot of that sector. *)
Fixpoint link_find_sector (node : worldSector_t F) (lo hi : vec3_t F) : Z :=
  match node with
  | SectorLeaf k _ _ => k
  | SectorNode k axis dist c0 c1 _ =>
    if axis =? -1 then k
    else if fgtb (vget lo axis) dist then link_find_sector c0 lo hi
    else if fltb (vget hi axis) dist then link_find_sector c1 lo hi
    else k
  end.

(** [SV_LinkEntity]. [clusternums] keeps the [numClusters] entries
    written by the last link. *)
Definition SV_LinkEntity (num : Z) (w : world F) : world F :=
  let w :=
    match worldSector (SV_SvEntityForGentityMapper w num) with
    | Some _ => SV_UnlinkEntity num w
    | None => w
    end in
  let ent := SV_SvEntityForGentityMapper w num in
  let gEnt := SV_GentityMapperNum w num in
  let gEnt := set_solid (encode_solid gEnt) gEnt in
  let '(lo, hi) := link_absbox gEnt in
  let gEnt := set_absbox lo hi gEnt in
  let '(leafs, lastLeaf) := CM_BoxLeafnums O lo hi MAX_TOTAL_ENT_LEAFS in
  if Z.of_nat (length leafs) =? 0 then
    put_svEntity num
      {| worldSector := worldSector ent; numClusters := 0;
         clusternums := []; lastCluster := 0;
         areanum := -1; areanum2 := -1 |}
      (put_gentity num gEnt w)
  else
    let '(a1, a2) := link_areas leafs in
    let '(clusters, broke) := link_clusters leafs [] in
    let last := if broke then CM_LeafCluster O lastLeaf else 0 in
    let gEnt := set_linkcount (linkcount (r gEnt) + 1) gEnt in
    let node := link_find_sector (sv_worldSectors w) lo hi in
    let chain := default [] (sector_lookup node (sv_worldSectors w)) in
    let w := put_sectors (sector_store node (num :: chain)
                                       (sv_worldSectors w)) w in
    let w := put_svEntity num
               {| worldSector := Some node;
                  numClusters := Z.of_nat (length clusters);
                  clusternums := clusters; lastCluster := last;
                  areanum := a1; areanum2 := a2 |} w in
    put_gentity num (set_linked true gEnt) w.

(* --------------------------------------------------------------- *)
(** *** Area query *)

(** [areaParms_t]: [ap_list] is the part of the caller's array
    written so far, [ap_count] the counter. *)
Record areaParms_t : Type := {
  ap_mins : vec3_t F;
  ap_maxs : vec3_t F;
  ap_list : list Z;
  ap_count : Z;
  ap_maxcount : Z
}.

(** The test of [SV_AreaEntities_r] that skips an entity, on the
    [mins] and [maxs] of the query. *)
Definition area_disjoint (g : sharedEntityMapper_t F) (mins_ maxs_ : vec3_t F)
  : bool :=
  fgtb (v0 (absmin (r g))) (v0 maxs_)
  || fgtb (v1 (absmin (r g))) (v1 maxs_)
  || fgtb (v2 (absmin (r g))) (v2 maxs_)
  || fltb (v0 (absmax (r g))) (v0 mins_)
  || fltb (v1 (absmax (r g))) (v1 mins_)
  || fltb (v2 (absmax (r g))) (v2 mins_).

(** The loop over the chain of one sector. The flag of the result is
    true when the loop was left by the [return] of the MAXCOUNT test. *)
Fixpoint area_chain (w : world F) (chain : list Z) (ap : areaParms_t)
  : areaParms_t * bool :=
  match chain with
  | [] => (ap, false)
  | check :: next =>
    if area_disjoint (SV_GentityMapperNum w check) (ap_mins ap) (ap_maxs ap) then
      area_chain w next ap
    else if ap_count ap =? ap_maxcount ap then (ap, true)
    else
      area_chain w next
        {| ap_mins := ap_mins ap; ap_maxs := ap_maxs ap;
           ap_list := ap_list ap ++ [check];
           ap_count := ap_count ap + 1;
           ap_maxcount := ap_maxcount ap |}
  end.

(** [SV_AreaEntities_r] *)
Fixpoint SV_AreaEntities_r (w : world F) (node : worldSector_t F)
         (ap : areaParms_t) : areaParms_t :=
  let '(ap, returned) := area_chain w (sector_entities node) ap in
  if returned then ap else
  match node with
  | SectorLeaf _ _ _ => ap
  | SectorNode _ axis dist c0 c1 _ =>
    if axis =? -1 then ap else
    let ap :=
      if fgtb (vget (ap_maxs ap) axis) dist
      then SV_AreaEntities_r w c0 ap else ap in
    if fltb (vget (ap_mins ap) axis) dist
    then SV_AreaEntities_r w c1 ap else ap
  end.

(** [SV_AreaEntities]: the count returned and the entries written to
    [entityList]. *)
Definition SV_AreaEntities (w : world F) (mins_ maxs_ : vec3_t F)
           (maxcount : Z) : Z * list Z :=
  let ap := SV_AreaEntities_r w (sv_worldSectors w)
              {| ap_mins := mins_; ap_maxs := maxs_; ap_list := [];
                 ap_count := 0; ap_maxcount := maxcount |} in
  (ap_count ap, ap_list ap).

(* --------------------------------------------------------------- *)
(** *** Move clipping *)

(** [moveclip_t] *)
Record moveclip_t : Type := {
  boxmins : vec3_t F;
  boxmaxs : vec3_t F;
  clip_mins : vec3_t F;
  clip_maxs : vec3_t F;
  clip_start : vec3_t F;
  clip_end : vec3_t F;
  passEntityNum : Z;
  contentmask : Z;
  clip_capsule : Z;
  traceFlags : Z;
  useLod : Z;
  clip_trace : trace_t F
}.

Definition set_clip_trace (tr : trace_t F) (clip : moveclip_t) : moveclip_t :=
  {| boxmins := boxmins clip; boxmaxs := boxmaxs clip;
     clip_mins := clip_mins clip; clip_maxs := clip_maxs clip;
     clip_start := clip_start clip; clip_end := clip_end clip;
     passEntityNum := passEntityNum clip; contentmask := contentmask clip;
     clip_capsule := clip_capsule clip; traceFlags := traceFlags clip;
     useLod := useLod clip; clip_trace := tr |}.

Definition set_allsolid (b : bool) (tr : trace_t F) : trace_t F :=
  Build_trace_t b (startsolid tr) (fraction tr) (endpos tr)
                (plane_normal tr) (surfaceFlags tr) (trace_contents tr)
                (entityNum tr).

Definition set_startsolid (b : bool) (tr : trace_t F) : trace_t F :=
  Build_trace_t (allsolid tr) b (fraction tr) (endpos tr)
                (plane_normal tr) (surfaceFlags tr) (trace_contents tr)
                (entityNum tr).

Definition set_entityNum (n : Z) (tr : trace_t F) : trace_t F :=
  Build_trace_t (allsolid tr) (startsolid tr) (fraction tr) (endpos tr)
                (plane_normal tr) (surfaceFlags tr) (trace_contents tr) n.

Definition set_endpos (p : vec3_t F) (tr : trace_t F) : trace_t F :=
  Build_trace_t (allsolid tr) (startsolid tr) (fraction tr) p
                (plane_normal tr) (surfaceFlags tr) (trace_contents tr)
                (entityNum tr).

Definition set_plane_normal (p : vec3_t F) (tr : trace_t F) : trace_t F :=
  Build_trace_t (allsolid tr) (startsolid tr) (fraction tr) (endpos tr)
                p (surfaceFlags tr) (trace_contents tr) (entityNum tr).

Definition set_surfaceFlags (f : Z) (tr : trace_t F) : trace_t F :=
  Build_trace_t (allsolid tr) (startsolid tr) (fraction tr) (endpos tr)
                (plane_normal tr) f (trace_contents tr) (entityNum tr).

(** A zeroed [trace_t] *)
Definition zero_trace : trace_t F :=
  Build_trace_t false false (f_of_Z 0) vec3_origin vec3_origin 0 0 0.

(** What the file asks of the other modules, in call order. *)
Inductive clip_event : Type :=
| EvWorldClip
| EvAreaEntities (lo hi : vec3_t F)
| EvExamine (num : Z)
| EvEntityClip (num : Z)
| EvGhoul2 (num : Z).

(** [SV_ClipHandleForEntity] *)
Definition SV_ClipHandleForEntity (ent : sharedEntityMapper_t F)
  : clipHandle_t F :=
  if bmodel (r ent) then CM_InlineModel (modelindex (s ent))
  else if negb (Z.land (svFlags (r ent)) (SVF_CAPSULE K) =? 0)
  then CM_TempBoxModel (mins (r ent)) (maxs (r ent)) true
  else CM_TempBoxModel (mins (r ent)) (maxs (r ent)) false.

Definition flag_set (flags bit : Z) : bool := negb (Z.land flags bit =? 0).

(** The mask test of the owner rule and of the no-shot rule. *)
Definition is_shot_mask (mask : Z) : bool :=
  (mask =? Z.lor (MASK_SHOT K) (CONTENTS_LIGHTSABER K)) || (mask =? MASK_SHOT K).

(** The [continue] statements of the loop of [SV_ClipMoveToEntities]
    that skip a candidate, in program order. *)
Inductive clip_skip : Type :=
| SkipPassEntity
| SkipOwnedByPass
| SkipSameOwner
| SkipMissileSameOwner
| SkipContents
| SkipNoShot.

(** The tests made on [touchlist[i]] when there is a pass entity:
    [Some reason] when a [continue] is taken. *)
Definition clip_owner_rules (clip : moveclip_t) (passOwnerNum : Z)
           (thisOwnerShared : bool) (num : Z)
           (touch : sharedEntityMapper_t F) : option clip_skip :=
  if negb (passEntityNum clip =? ENTITYNUM_NONE K) then
    if num =? passEntityNum clip then Some SkipPassEntity
    else if (ownerNum (r touch) =? passEntityNum clip)
            && (if flag_set (svFlags (r touch)) (SVF_OWNERNOTSHARED K)
                then negb (contentmask clip
                           =? Z.lor (MASK_SHOT K) (CONTENTS_LIGHTSABER K))
                     && negb (contentmask clip =? MASK_SHOT K)
                else true)
    then Some SkipOwnedByPass
    else if (ownerNum (r touch) =? passOwnerNum)
            && negb (flag_set (svFlags (r touch)) (SVF_OWNERNOTSHARED K))
            && thisOwnerShared
    then Some SkipSameOwner
    else if (eType (s touch) =? ET_MISSILE K)
            && negb (flag_set (svFlags (r touch)) (SVF_OWNERNOTSHARED K))
            && (ownerNum (r touch) =? passOwnerNum)
    then Some SkipMissileSameOwner
    else None
  else None.

(** The two tests on the contents that follow. *)
Definition clip_content_rules (clip : moveclip_t)
           (touch : sharedEntityMapper_t F) : option clip_skip :=
  if Z.land (contentmask clip) (contents (r touch)) =? 0
  then Some SkipContents
  else if is_shot_mask (contentmask clip)
          && ((0 <? contents (r touch))
              && flag_set (contents (r touch)) (CONTENTS_NOSHOT K))
  then Some SkipNoShot
  else None.

(** The tests made on [touchlist[i]] before the exact clip:
    [Some reason] when a [continue] is taken, [None] when the entity is
    clipped against. *)
Definition clip_filter (clip : moveclip_t) (passOwnerNum : Z)
           (thisOwnerShared : bool) (num : Z)
           (touch : sharedEntityMapper_t F) : option clip_skip :=
  match clip_owner_rules clip passOwnerNum thisOwnerShared num touch with
  | Some why => Some why
  | None => clip_content_rules clip touch
  end.

(** The aggregation of one exact trace into [clip->trace]: the result
    is the new [clip->trace] and the local [trace] as it is left. *)
Definition clip_aggregate (agg trace : trace_t F) (touch_number : Z)
  : trace_t F * trace_t F :=
  let '(agg, trace) :=
    if allsolid trace then
      (set_allsolid true agg, set_entityNum touch_number trace)
    else if startsolid trace then
      (set_entityNum touch_number (set_startsolid true agg),
       set_entityNum touch_number trace)
    else (agg, trace) in
  if fltb (fraction trace) (fraction agg) then
    let oldStart := startsolid agg in
    let trace := set_entityNum touch_number trace in
    (set_startsolid (startsolid trace || oldStart) trace, trace)
  else (agg, trace).

(** The scan of the [G2Trace_t] for the entry of the entity: stops at
    the first entry of the entity or at the first free entry. *)
Fixpoint g2_best (touch_number : Z) (recs : list (CollisionRecord_t F))
  : option (CollisionRecord_t F) :=
  match recs with
  | [] => None
  | rec :: rest =>
    if mEntityNum rec =? touch_number then Some rec
    else if mEntityNum rec =? -1 then None
    else g2_best touch_number rest
  end.

(** The radius handed to the Ghoul2 collision. *)
Definition g2_radius (clip : moveclip_t) : F :=
  let fRadius :=
    if fnonzero (v0 (clip_mins clip)) || fnonzero (v0 (clip_maxs clip))
    then fdiv (fsub (v0 (clip_maxs clip)) (v0 (clip_mins clip))) (f_of_Z 2)
    else f_of_Z 0 in
  if flag_set (traceFlags clip) (G2TRFLAG_THICK K)
  then if fltb fRadius (f_of_Z 1) then f_of_Z 1 else fRadius
  else fRadius.

(** The Ghoul2 part of the loop body, entered when the flag asks for
    it and the local trace names the entity. *)
Definition clip_ghoul2 (clip : moveclip_t) (oldTrace trace : trace_t F)
           (touch : sharedEntityMapper_t F)
  : moveclip_t * list clip_event :=
  if flag_set (traceFlags clip) (G2TRFLAG_DOGHOULTRACE K)
     && (entityNum trace =? number (s touch))
     && negb (ghoul2 touch =? 0)
     && (flag_set (traceFlags clip) (G2TRFLAG_HITCORPSES K)
         || negb (flag_set (eFlags (s touch)) (EF_DEAD K)))
  then
    let base := if number (s touch) <? MAX_CLIENTS K
                then apos_trBase touch else currentAngles (r touch) in
    let angles := Vec3 (f_of_Z 0) (v1 base) (f_of_Z 0) in
    let G2Trace :=
      take (MAX_G2_COLLISIONS K)
           (G2API_CollisionDetect O touch angles (clip_start clip)
                                  (clip_end clip) (useLod clip)
                                  (g2_radius clip)) in
    match g2_best (number (s touch)) G2Trace with
    | None => (set_clip_trace oldTrace clip, [EvGhoul2 (number (s touch))])
    | Some best =>
      let tr := set_plane_normal (mCollisionNormal best)
                  (set_endpos (mCollisionPosition best) (clip_trace clip)) in
      let tr :=
        if flag_set (traceFlags clip) (G2TRFLAG_GETSURFINDEX K)
           && (entityNum tr =? mEntityNum best)
        then set_surfaceFlags (mSurfaceIndex best) tr else tr in
      (set_clip_trace tr clip, [EvGhoul2 (number (s touch))])
    end
  else (clip, []).

(** One pass of the loop body for [touchlist[i] = num], after the
    [allsolid] test at its top. [oldTrace] is the local of that name. *)
Definition clip_entity (w : world F) (passOwnerNum : Z)
           (thisOwnerShared : bool) (num : Z)
           (st : moveclip_t * trace_t F)
  : (moveclip_t * trace_t F) * list clip_event :=
  let '(clip, oldTrace) := st in
  let touch := SV_GentityMapperNum w num in
  match clip_filter clip passOwnerNum thisOwnerShared num touch with
  | Some _ => (st, [EvExamine num])
  | None =>
    let clipHandle := SV_ClipHandleForEntity touch in
    let origin := currentOrigin (r touch) in
    let angles := if bmodel (r touch) then currentAngles (r touch)
                  else vec3_origin in
    let trace :=
      CM_TransformedBoxTrace O (clip_start clip) (clip_end clip)
                             (clip_mins clip) (clip_maxs clip) clipHandle
                             (contentmask clip) origin angles
                             (clip_capsule clip) in
    let oldTrace :=
      if flag_set (traceFlags clip) (G2TRFLAG_DOGHOULTRACE K)
      then clip_trace clip else oldTrace in
    let '(agg, trace) :=
      clip_aggregate (clip_trace clip) trace (number (s touch)) in
    let clip := set_clip_trace agg clip in
    let '(clip, evs) := clip_ghoul2 clip oldTrace trace touch in
    ((clip, oldTrace), [EvExamine num; EvEntityClip num] ++ evs)
  end.

(** The loop of [SV_ClipMoveToEntities] over the rest of [touchlist]. *)
Fixpoint clip_loop (w : world F) (passOwnerNum : Z) (thisOwnerShared : bool)
         (touchlist : list Z) (st : moveclip_t * trace_t F)
  : (moveclip_t * trace_t F) * list clip_event :=
  match touchlist with
  | [] => (st, [])
  | num :: rest =>
    if allsolid (clip_trace (fst st)) then (st, [])
    else
      let '(st, evs) := clip_entity w passOwnerNum thisOwnerShared num st in
      let '(st, evs') := clip_loop w passOwnerNum thisOwnerShared rest st in
      (st, evs ++ evs')
  end.

(** [SV_GentityMapperNum] as used for the pass entity, where the
    result and its shared part are tested against null. *)
Definition pass_entity (w : world F) (num : Z)
  : option (sharedEntityMapper_t F) :=
  if SV_GentityMapped O num
  then Some (SV_GentityMapperNum w num) else None.

(** The locals [passOwnerNum] and [thisOwnerShared] of
    [SV_ClipMoveToEntities] as they are when the loop starts. *)
Definition clip_passOwnerNum (w : world F) (clip : moveclip_t) : Z :=
  match pass_entity w (passEntityNum clip) with
  | Some p =>
    if negb (passEntityNum clip =? ENTITYNUM_NONE K)
       && negb (ownerNum (r p) =? ENTITYNUM_NONE K)
    then ownerNum (r p) else -1
  | None => -1
  end.

Definition clip_thisOwnerShared (w : world F) (clip : moveclip_t) : bool :=
  match pass_entity w (passEntityNum clip) with
  | Some p => negb (flag_set (svFlags (r p)) (SVF_OWNERNOTSHARED K))
  | None => true
  end.

(** The entries [0 .. num-1] of [touchlist] after the call of
    [SV_AreaEntities]. *)
Definition clip_touchlist (w : world F) (clip : moveclip_t) : list Z :=
  let '(num, touchlist) :=
    SV_AreaEntities w (boxmins clip) (boxmaxs clip) (MAX_GENTITIES K) in
  take (Z.to_nat num) touchlist.

(** [SV_ClipMoveToEntities] *)
Definition SV_ClipMoveToEntities (w : world F) (clip : moveclip_t)
  : moveclip_t * list clip_event :=
  let touchlist := clip_touchlist w clip in
  let passOwnerNum := clip_passOwnerNum w clip in
  let thisOwnerShared := clip_thisOwnerShared w clip in
  let '((clip', _), evs) :=
    clip_loop w passOwnerNum thisOwnerShared touchlist (clip, zero_trace) in
  (clip', EvAreaEntities (boxmins clip) (boxmaxs clip) :: evs).

(** The box of the whole move, one axis. *)
Definition move_box_axis (start end_ mins_ maxs_ : F) : F * F :=
  if fgtb end_ start
  then (fsub (fadd start mins_) (f_of_Z 1), fadd (fadd end_ maxs_) (f_of_Z 1))
  else (fsub (fadd end_ mins_) (f_of_Z 1), fadd (fadd start maxs_) (f_of_Z 1)).

(** [SV_Trace]. [mins_] and [maxs_] are pointers that may be null. *)
Definition SV_Trace (w : world F) (start : vec3_t F)
           (mins_ maxs_ : option (vec3_t F)) (end_ : vec3_t F)
           (passEntityNum_ contentmask_ capsule traceFlags_ useLod_ : Z)
  : trace_t F * list clip_event :=
  let mins_ := match mins_ with Some v => v | None => vec3_origin end in
  let maxs_ := match maxs_ with Some v => v | None => vec3_origin end in
  let tr := CM_BoxTrace O start end_ mins_ maxs_ contentmask_ capsule in
  let tr := set_entityNum
              (if negb (feqb (fraction tr) (f_of_Z 1))
               then ENTITYNUM_WORLD K else ENTITYNUM_NONE K) tr in
  if feqb (fraction tr) (f_of_Z 0) then (tr, [EvWorldClip])
  else
    let '(lo0, hi0) :=
      move_box_axis (v0 start) (v0 end_) (v0 mins_) (v0 maxs_) in
    let '(lo1, hi1) :=
      move_box_axis (v1 start) (v1 end_) (v1 mins_) (v1 maxs_) in
    let '(lo2, hi2) :=
      move_box_axis (v2 start) (v2 end_) (v2 mins_) (v2 maxs_) in
    let clip :=
      {| boxmins := Vec3 lo0 lo1 lo2; boxmaxs := Vec3 hi0 hi1 hi2;
         clip_mins := mins_; clip_maxs := maxs_;
         clip_start := start; clip_end := end_;
         passEntityNum := passEntityNum_; contentmask := contentmask_;
         clip_capsule := capsule; traceFlags := traceFlags_;
         useLod := useLod_; clip_trace := tr |} in
    let '(clip, evs) := SV_ClipMoveToEntities w clip in
    (clip_trace clip, EvWorldClip :: evs).
End World.

(* ================================================================= *)
(** ** Notions used to state the properties *)

Section Notions.
Context {F : Type} {ops : FloatOps F} (K : Constants) (O : Oracles F).

(** [clamp lo hi x]: [x] limited to the interval from [lo] to [hi]. *)
Definition clamp (lo hi x : Z) : Z := Z.max lo (Z.min hi x).

(** The size code as the three clamped extents packed into one
    integer, before the adjustment for [SOLID_BMODEL]. *)
Definition packed_extents (g : sharedEntityMapper_t F) : Z :=
  Z.lor (Z.lor (Z.shiftl (clamp 1 255 (ftrunc (fadd (v2 (maxs (r g)))
                                                   (f_of_Z 32)))) 16)
               (Z.shiftl (clamp 1 255 (ftrunc (fneg (v2 (mins (r g)))))) 8))
        (clamp 1 255 (ftrunc (v0 (maxs (r g))))).

(** An entity is linked when it has an owning sector. *)
Definition entity_linked (w : world F) (num : Z) : Prop :=
  worldSector (SV_SvEntityForGentityMapper w num) <> None.

(** Two boxes intersect when their closed intervals meet on the three
    axes. *)
Definition boxes_intersect (lo hi lo' hi' : vec3_t F) : bool :=
  fleb (v0 lo) (v0 hi') && fleb (v0 lo') (v0 hi)
  && fleb (v1 lo) (v1 hi') && fleb (v1 lo') (v1 hi)
  && fleb (v2 lo) (v2 hi') && fleb (v2 lo') (v2 hi).

(** The box recorded for an entity intersects the box [lo .. hi]. *)
Definition entity_in_box (w : world F) (lo hi : vec3_t F) (num : Z) : bool :=
  let g := SV_GentityMapperNum w num in
  boxes_intersect lo hi (absmin (r g)) (absmax (r g)).

(** The shape [SV_CreateworldSector] gives to the tree below a node
    made at [depth] for the box [lo .. hi]: above [AREA_DEPTH] a node
    with two children, split on an axis whose extent is not exceeded
    by the other horizontal one, at the middle of the box; at
    [AREA_DEPTH] a leaf. No chain holds an entity. *)
Fixpoint sector_shape (depth : Z) (lo hi : vec3_t F) (n : worldSector_t F)
  : Prop :=
  match n with
  | SectorLeaf _ _ l => depth = AREA_DEPTH /\ l = []
  | SectorNode _ axis dist c0 c1 l =>
    depth < AREA_DEPTH /\ l = []
    /\ (axis = 0 \/ axis = 1)
    /\ fgtb (fsub (vget hi (1 - axis)) (vget lo (1 - axis)))
            (fsub (vget hi axis) (vget lo axis)) = false
    /\ dist = fmul fhalf (fadd (vget hi axis) (vget lo axis))
    /\ sector_shape (depth + 1) (vset lo axis dist) hi c0
    /\ sector_shape (depth + 1) lo (vset hi axis dist) c1
  end.

(** What the game and the server do to the entities between queries:
    link an entity, unlink it, or write the fields of an entity that
    belong to the game. The box [absmin .. absmax] is written by
    [SV_LinkEntity] only. *)
Inductive world_op : Type :=
| OpLink (num : Z)
| OpUnlink (num : Z)
| OpGame (num : Z) (g : sharedEntityMapper_t F).

Definition game_write (num : Z) (g : sharedEntityMapper_t F) (w : world F)
  : world F :=
  let old := SV_GentityMapperNum w num in
  put_gentity num (set_absbox (absmin (r old)) (absmax (r old)) g) w.

Definition run_op (w : world F) (op : world_op) : world F :=
  match op with
  | OpLink num => SV_LinkEntity K O num w
  | OpUnlink num => SV_UnlinkEntity num w
  | OpGame num g => game_write num g w
  end.

Definition run_ops (l : list world_op) (w : world F) : world F :=
  fold_left run_op l w.

(** The state at the start of a level: zeroed entity arrays, then
    [SV_ClearWorld]. *)
Definition zero_world : world F :=
  Build_world (SectorLeaf 0 (f_of_Z 0) []) 0 ∅ ∅ [].

Definition server_start : option (world F) := SV_ClearWorld O zero_world.

(** The numbers of the linked entities, and how many of them have a
    box intersecting [lo .. hi]. *)
Definition linked_entities (w : world F) : list Z :=
  List.map fst
    (List.filter (fun p => match worldSector (snd p) with
                           | Some _ => true | None => false end)
                 (map_to_list (svEntities w))).

Definition overlap_count (w : world F) (lo hi : vec3_t F) : Z :=
  Z.of_nat (length (List.filter (entity_in_box w lo hi) (linked_entities w))).

(** Nodes of a full binary tree with [k] levels below its root. *)
Definition nodes_below (k : nat) : Z := 2 ^ (Z.of_nat k + 1) - 1.

(** The exact trace made for a candidate that is not skipped. *)
Definition entity_trace (w : world F) (clip : moveclip_t) (num : Z)
  : trace_t F :=
  let touch := SV_GentityMapperNum w num in
  CM_TransformedBoxTrace O (clip_start clip) (clip_end clip)
    (clip_mins clip) (clip_maxs clip) (SV_ClipHandleForEntity K touch)
    (contentmask clip) (currentOrigin (r touch))
    (if bmodel (r touch) then currentAngles (r touch) else vec3_origin)
    (clip_capsule clip).

(** The candidate passes all the tests made before the exact clip. *)
Definition survives (w : world F) (passOwnerNum : Z) (thisOwnerShared : bool)
           (clip : moveclip_t) (num : Z) : bool :=
  match clip_filter K clip passOwnerNum thisOwnerShared num
                    (SV_GentityMapperNum w num) with
  | None => true
  | Some _ => false
  end.

(** [clip->trace] after one pass of the loop, when the Ghoul2 flag is
    not set. *)
Definition agg_step (w : world F) (passOwnerNum : Z) (thisOwnerShared : bool)
           (clip : moveclip_t) (agg : trace_t F) (num : Z) : trace_t F :=
  if survives w passOwnerNum thisOwnerShared clip num
  then fst (clip_aggregate agg (entity_trace w clip num)
                           (number (s (SV_GentityMapperNum w num))))
  else agg.

(** [clip->trace] after the loop over [l], when the Ghoul2 flag is not
    set. *)
Fixpoint agg_loop (w : world F) (passOwnerNum : Z) (thisOwnerShared : bool)
         (clip : moveclip_t) (l : list Z) (agg : trace_t F) : trace_t F :=
  match l with
  | [] => agg
  | num :: rest =>
    if allsolid agg then agg
    else agg_loop w passOwnerNum thisOwnerShared clip rest
                  (agg_step w passOwnerNum thisOwnerShared clip agg num)
  end.

(** The test of [SV_AreaEntities_r] that keeps an entity. *)
Definition area_hit (w : world F) (lo hi : vec3_t F) (num : Z) : bool :=
  negb (area_disjoint (SV_GentityMapperNum w num) lo hi).

(** [ap] after the entities of [l] have been stored in the list. *)
Definition ap_extend (ap : areaParms_t) (l : list Z)
  : areaParms_t (F := F) :=
  {| ap_mins := ap_mins ap; ap_maxs := ap_maxs ap;
     ap_list := ap_list ap ++ l;
     ap_count := ap_count ap + Z.of_nat (length l);
     ap_maxcount := ap_maxcount ap |}.

(** The entities [SV_AreaEntities_r] meets below a node, in the order
    it meets them, when the list never fills up. *)
Fixpoint area_walk (w : world F) (lo hi : vec3_t F) (n : worldSector_t F)
  : list Z :=
  List.filter (area_hit w lo hi) (sector_entities n)
  ++ match n with
     | SectorLeaf _ _ _ => []
     | SectorNode _ axis dist c0 c1 _ =>
       if axis =? -1 then [] else
       (if fgtb (vget hi axis) dist then area_walk w lo hi c0 else [])
       ++ (if fltb (vget lo axis) dist then area_walk w lo hi c1 else [])
     end.

(** The sides of the planes above a sector: an entity of the first
    child of a node has its [absmin] above [dist] on [axis], one of the
    second child its [absmax] below. *)
Inductive sector_side : Type :=
| SideAbove (axis : Z) (dist : F)
| SideBelow (axis : Z) (dist : F).

Definition on_side (lo hi : vec3_t F) (c : sector_side) : bool :=
  match c with
  | SideAbove axis dist => fgtb (vget lo axis) dist
  | SideBelow axis dist => fltb (vget hi axis) dist
  end.

Definition entity_box (w : world F) (num : Z) : vec3_t F * vec3_t F :=
  (absmin (r (SV_GentityMapperNum w num)),
   absmax (r (SV_GentityMapperNum w num))).

(** Every entity chained in the tree lies on the sides [cs] and on the
    sides of the nodes between the root of [n] and its own sector. *)
Fixpoint sector_placed (box : Z -> vec3_t F * vec3_t F) (cs : list sector_side)
         (n : worldSector_t F) : Prop :=
  match n with
  | SectorLeaf _ _ l =>
    forall e c, In e l -> In c cs -> on_side (fst (box e)) (snd (box e)) c = true
  | SectorNode _ axis dist c0 c1 l =>
    (forall e c, In e l -> In c cs ->
                 on_side (fst (box e)) (snd (box e)) c = true)
    /\ sector_placed box (SideAbove axis dist :: cs) c0
    /\ sector_placed box (SideBelow axis dist :: cs) c1
  end.

(** Every node with children splits on axis 0 or 1. *)
Fixpoint sector_axes (n : worldSector_t F) : Prop :=
  match n with
  | SectorLeaf _ _ _ => True
  | SectorNode _ axis _ c0 c1 _ =>
    (axis = 0 \/ axis = 1) /\ sector_axes c0 /\ sector_axes c1
  end.

(** The state of the registry between two calls. *)
Record world_inv (w : world F) : Prop := {
  inv_slots : NoDup (sector_slots (sv_worldSectors w));
  inv_axes : sector_axes (sv_worldSectors w);
  inv_members : NoDup (sector_members (sv_worldSectors w));
  inv_link : forall e k,
      worldSector (SV_SvEntityForGentityMapper w e) = Some k
      <-> exists l, sector_lookup k (sv_worldSectors w) = Some l /\ In e l;
  inv_placed : sector_placed (entity_box w) [] (sv_worldSectors w)
}.
End Notions.

(* ================================================================= *)
(** ** Instances used in the examples *)

(** Rationals as scalars. [ftrunc] rounds toward zero. *)
Definition Qlt_bool (a b : Q) : bool := negb (Qle_bool b a).

#[global] Instance Q_ops : FloatOps Q :=
  {| f_of_Z := inject_Z;
     fhalf := (1 # 2)%Q;
     fadd := Qplus;
     fsub := Qminus;
     fmul := Qmult;
     fdiv := Qdiv;
     fneg := Qopp;
     ftrunc := fun q => Z.quot (Qnum q) (Z.pos (Qden q));
     fltb := Qlt_bool;
     fgtb := fun a b => Qlt_bool b a;
     fleb := Qle_bool;
     feqb := Qeq_bool |}.

(** Values of the constants for the examples. *)
Definition jka_constants : Constants :=
  {| MAX_GENTITIES := 1024;
     ENTITYNUM_NONE := 1023;
     ENTITYNUM_WORLD := 1022;
     MAX_ENT_CLUSTERS := 16;
     SOLID_BMODEL := 16777215;
     CONTENTS_SOLID := 1;
     CONTENTS_BODY := 256;
     CONTENTS_LIGHTSABER := 262144;
     CONTENTS_NOSHOT := 2097152;
     MASK_SHOT := 769;
     SVF_CAPSULE := 1024;
     SVF_OWNERNOTSHARED := 4096;
     ET_MISSILE := 3;
     EF_DEAD := 1;
     MAX_CLIENTS := 32;
     MAX_G2_COLLISIONS := 16;
     G2TRFLAG_DOGHOULTRACE := 1;
     G2TRFLAG_GETSURFINDEX := 4;
     G2TRFLAG_THICK := 8;
     G2TRFLAG_HITCORPSES := 2 |}.

(** A stand-in for the collision model, on the X axis only: a sweep
    from [start] to [end_] meets the interval [blo .. bhi] of a solid.
    As in the collision model the hit is moved back by an epsilon of
    1/8 and a fraction below 0 is raised to 0. *)
Definition demo_sweep (start end_ blo bhi : Q) (hit : Z) : trace_t Q :=
  let inside := fun p : Q => Qle_bool blo p && Qle_bool p bhi in
  let at_fraction := fun f : Q =>
    Build_trace_t false false f
      (Vec3 (start + f * (end_ - start))%Q 0%Q 0%Q)
      (Vec3 (-1)%Q 0%Q 0%Q) 0 1 hit in
  if inside start then
    if inside end_ then
      Build_trace_t true true 0%Q (Vec3 start 0%Q 0%Q) (Vec3 0%Q 0%Q 0%Q)
                    0 1 hit
    else
      Build_trace_t false true 1%Q (Vec3 end_ 0%Q 0%Q) (Vec3 0%Q 0%Q 0%Q)
                    0 1 hit
  else if Qlt_bool start blo && Qle_bool blo end_ then
    let f := ((blo - (1 # 8) - start) / (end_ - start))%Q in
    at_fraction (if Qlt_bool f 0%Q then 0%Q else f)
  else
    Build_trace_t false false 1%Q (Vec3 end_ 0%Q 0%Q) (Vec3 0%Q 0%Q 0%Q)
                  0 0 1023.

(** The collaborators of the examples: a map that spans 2048 units with
    one leaf, cluster and area, and a wall that is solid between two
    positions along X when one is given; entities are solid boxes; no
    Ghoul2 model is hit. *)
Definition demo_oracles (wall : option (Q * Q)) : Oracles Q :=
  {| SV_GentityMapped := fun num => (0 <=? num) && (num <? 1024);
     CM_WorldBounds :=
       (Vec3 (-1024)%Q (-1024)%Q (-1024)%Q, Vec3 1024%Q 1024%Q 1024%Q);
     CM_BoxLeafnums := fun _ _ _ => ([1], 1);
     CM_LeafArea := fun _ => 0;
     CM_LeafCluster := fun _ => 0;
     RadiusFromBounds := fun lo hi => (v0 hi - v0 lo)%Q;
     CM_BoxTrace := fun start end_ mins_ maxs_ mask capsule =>
       match wall with
       | Some (x, x') => demo_sweep (v0 start) (v0 end_) x x' 1022
       | None => demo_sweep (v0 start) (v0 end_) 2048%Q 2048%Q 1022
       end;
     CM_TransformedBoxTrace :=
       fun start end_ mins_ maxs_ handle mask origin angles capsule =>
       match handle with
       | CM_TempBoxModel lo hi _ =>
         demo_sweep (v0 start) (v0 end_) (v0 origin + v0 lo)%Q
                    (v0 origin + v0 hi)%Q 1022
       | CM_InlineModel _ =>
         demo_sweep (v0 start) (v0 end_) 2048%Q 2048%Q 1022
       end;
     G2API_CollisionDetect := fun _ _ _ _ _ _ => [] |}.

(** A solid box of half size [h] centred at [(x, 0, 0)], as the game
    fills it in for entity [num] owned by [owner]. *)
Definition demo_box (num owner : Z) (x h : Q) : sharedEntityMapper_t Q :=
  {| s := {| number := num; eType := 0; eFlags := 0; solid := 0;
             modelindex := 0 |};
     r := {| linked := false; linkcount := 0; svFlags := 0; bmodel := false;
             mins := Vec3 (- h)%Q (- h)%Q (- h)%Q;
             maxs := Vec3 h h h;
             contents := 1;
             absmin := Vec3 0%Q 0%Q 0%Q; absmax := Vec3 0%Q 0%Q 0%Q;
             currentOrigin := Vec3 x 0%Q 0%Q;
             currentAngles := Vec3 0%Q 0%Q 0%Q;
             ownerNum := owner |};
     ghoul2 := 0;
     apos_trBase := Vec3 0%Q 0%Q 0%Q |}.

(** A missile owned by [owner] whose flags have [SVF_OWNERNOTSHARED],
    with the given contents. *)
Definition demo_missile (num owner contents_ : Z) (x h : Q)
  : sharedEntityMapper_t Q :=
  {| s := {| number := num; eType := 3; eFlags := 0; solid := 0;
             modelindex := 0 |};
     r := {| linked := false; linkcount := 0; svFlags := 4096; bmodel := false;
             mins := Vec3 (- h)%Q (- h)%Q (- h)%Q;
             maxs := Vec3 h h h;
             contents := contents_;
             absmin := Vec3 0%Q 0%Q 0%Q; absmax := Vec3 0%Q 0%Q 0%Q;
             currentOrigin := Vec3 x 0%Q 0%Q;
             currentAngles := Vec3 0%Q 0%Q 0%Q;
             ownerNum := owner |};
     ghoul2 := 0;
     apos_trBase := Vec3 0%Q 0%Q 0%Q |}.

(** The world of the examples after the operations [l]. *)
Definition demo_world_of (wall : option (Q * Q))
           (l : list (world_op (F := Q)))
  : option (world Q) :=
  match server_start (demo_oracles wall) with
  | Some w => Some (run_ops jka_constants (demo_oracles wall) l w)
  | None => None
  end.

(** The world of the examples after the game has spawned and linked the
    boxes of [l], given as (number, centre, half size), in that order. *)
Definition demo_world (wall : option (Q * Q)) (l : list (Z * Q * Q))
  : option (world Q) :=
  demo_world_of wall
    (flat_map (fun '(num, x, h) =>
                 [OpGame num (demo_box num 1023 x h); OpLink num]) l).

(** The state of a point trace from the origin to [(100, 0, 0)] that
    the world does not block, before the entities are examined. *)
Definition demo_clip (pass mask flags : Z) : moveclip_t (F := Q) :=
  {| boxmins := Vec3 (-1)%Q (-1)%Q (-1)%Q;
     boxmaxs := Vec3 101%Q 1%Q 1%Q;
     clip_mins := Vec3 0%Q 0%Q 0%Q;
     clip_maxs := Vec3 0%Q 0%Q 0%Q;
     clip_start := Vec3 0%Q 0%Q 0%Q;
     clip_end := Vec3 100%Q 0%Q 0%Q;
     passEntityNum := pass;
     contentmask := mask;
     clip_capsule := 0;
     traceFlags := flags;
     useLod := 0;
     clip_trace := demo_sweep 0%Q 100%Q 2048%Q 2048%Q 1022 |}.

(* ================================================================= *)
(** * Properties *)

(** ** The rationals satisfy the order laws *)

Lemma Qlt_bool_iff (a b : Q) : Qlt_bool a b = true <-> (a < b)%Q.
Proof.
  unfold Qlt_bool. rewrite negb_true_iff, <- not_true_iff_false, Qle_bool_iff.
  split; [apply Qnot_le_lt | apply Qlt_not_le].
Qed.

Lemma Qlt_bool_false_iff (a b : Q) : Qlt_bool a b = false <-> (b <= a)%Q.
Proof.
  unfold Qlt_bool. rewrite negb_false_iff. apply Qle_bool_iff.
Qed.

Lemma Q_laws : FloatLaws Q_ops.
Proof.
  split; simpl.
  - reflexivity.
  - intros a b. unfold Qlt_bool. now rewrite negb_involutive.
  - intros a b. unfold Qlt_bool. rewrite !negb_involutive.
    destruct (Qeq_bool a b) eqn:E.
    + apply Qeq_bool_iff in E. symmetry. apply andb_true_iff.
      split; apply Qle_bool_iff; rewrite E; apply Qle_refl.
    + symmetry. apply not_true_iff_false. intros H.
      apply andb_true_iff in H as [H1 H2].
      apply Qle_bool_iff in H1, H2.
      apply not_true_iff_false in E. apply E, Qeq_bool_iff.
      now apply Qle_antisym.
  - intros a. apply Qlt_bool_false_iff, Qle_refl.
  - intros a b c H1 H2. apply Qlt_bool_iff in H1, H2. apply Qlt_bool_iff.
    now apply Qlt_trans with b.
  - intros a b c H. apply Qlt_bool_iff in H.
    destruct (Qlt_le_dec a c) as [Hac | Hca].
    + left. now apply Qlt_bool_iff.
    + right. apply Qlt_bool_iff. now apply Qle_lt_trans with a.
  - reflexivity.
Qed.

(** ** Consequences of the order laws *)

Section Laws.
Context {F : Type} {ops : FloatOps F} {laws : FloatLaws ops}.

Lemma fltb_asym (a b : F) : fltb a b = true -> fltb b a = false.
Proof.
  intros H. destruct (fltb b a) eqn:E; [|reflexivity].
  pose proof (fltb_trans _ _ _ H E) as Haa.
  now rewrite fltb_irrefl in Haa.
Qed.

Lemma fgtb_asym (a b : F) : fgtb a b = true -> fgtb b a = false.
Proof. rewrite !fgtb_fltb. apply fltb_asym. Qed.

(** [a > d] and not [m > d] give [a > m]. *)
Lemma fgtb_above (a d m : F) :
  fgtb a d = true -> fgtb m d = false -> fgtb a m = true.
Proof.
  rewrite !fgtb_fltb. intros H Hm.
  destruct (fltb_cotrans _ _ m H) as [H1 | H1]; [congruence | exact H1].
Qed.

(** [a < d] and not [m < d] give [a < m]. *)
Lemma fltb_below (a d m : F) :
  fltb a d = true -> fltb m d = false -> fltb a m = true.
Proof.
  intros H Hm.
  destruct (fltb_cotrans _ _ m H) as [H1 | H1]; [exact H1 | congruence].
Qed.

Lemma feqb_0_not_1 (x : F) :
  feqb x (f_of_Z 0) = true -> feqb x (f_of_Z 1) = false.
Proof.
  rewrite !feqb_fltb. intros H.
  apply andb_true_iff in H as [H1 H2].
  apply negb_true_iff in H1, H2.
  destruct (fltb_cotrans _ _ x fltb_0_1) as [H | H].
  - congruence.
  - rewrite H. reflexivity.
Qed.
End Laws.

(** ** Construction of the sector tree *)

Lemma nodes_below_0 : nodes_below 0 = 1.
Proof. reflexivity. Qed.

Lemma nodes_below_S (k : nat) :
  nodes_below (S k) = 1 + nodes_below k + nodes_below k.
Proof.
  unfold nodes_below. rewrite Nat2Z.inj_succ.
  replace (Z.succ (Z.of_nat k) + 1) with (Z.succ (Z.of_nat k + 1)) by lia.
  rewrite Z.pow_succ_r by lia. lia.
Qed.

Lemma nodes_below_pos (k : nat) : 0 < nodes_below k.
Proof.
  induction k as [|k IH]; [rewrite nodes_below_0 | rewrite nodes_below_S]; lia.
Qed.

Section BuildProperties.
Context {F : Type} {ops : FloatOps F}.

(** The axis chosen at a node is 0 or 1 and the other horizontal
    extent does not exceed the extent on it. *)
Lemma split_axis_longer {laws : FloatLaws ops} (lo hi : vec3_t F) :
  let size := vmap2 fsub hi lo in
  let axis := if fgtb (v0 size) (v1 size) then 0 else 1 in
  (axis = 0 \/ axis = 1)
  /\ fgtb (fsub (vget hi (1 - axis)) (vget lo (1 - axis)))
          (fsub (vget hi axis) (vget lo axis)) = false.
Proof.
  simpl. destruct (fgtb (fsub (v0 hi) (v0 lo)) (fsub (v1 hi) (v1 lo))) eqn:E.
  - split; [now left|]. unfold vget; simpl. now apply fgtb_asym.
  - split; [now right|]. unfold vget; simpl. exact E.
Qed.

(** With [k] levels to go and room in the array the construction
    succeeds, numbers the nodes in the order they are made and gives
    the tree its shape. *)
Lemma SV_CreateworldSector_levels {laws : FloatLaws ops} (k : nat) :
  forall (fuel : nat) (lo hi : vec3_t F) (num : Z),
    (k <= 4)%nat -> (k < fuel)%nat -> 0 <= num ->
    num + nodes_below k <= AREA_NODES ->
    exists t,
      SV_CreateworldSector fuel (AREA_DEPTH - Z.of_nat k) lo hi num
      = Some (t, num + nodes_below k)
      /\ sector_shape (AREA_DEPTH - Z.of_nat k) lo hi t
      /\ sector_count t = nodes_below k
      /\ sector_slots t = seqZ num (nodes_below k).
Proof.
  induction k as [|k IH]; intros fuel lo hi num Hk Hfuel Hnum Hroom.
  - destruct fuel as [|fuel]; [lia|]. simpl.
    rewrite nodes_below_0 in *.
    destruct (Z.leb_spec AREA_NODES num) as [Hle|_]; [lia|].
    eexists. split; [reflexivity|]. repeat split.
  - destruct fuel as [|fuel]; [lia|].
    rewrite nodes_below_S in *.
    pose proof (nodes_below_pos k) as Hpos.
    cbn [SV_CreateworldSector].
    destruct (Z.leb_spec AREA_NODES num) as [Hle|_]; [lia|].
    destruct (Z.eqb_spec (AREA_DEPTH - Z.of_nat (S k)) AREA_DEPTH) as [He|_];
      [lia|].
    replace (AREA_DEPTH - Z.of_nat (S k) + 1) with (AREA_DEPTH - Z.of_nat k)
      by lia.
    destruct (split_axis_longer lo hi) as [Haxis Hlong].
    cbv zeta in Haxis, Hlong.
    set (axis := if fgtb (v0 (vmap2 fsub hi lo)) (v1 (vmap2 fsub hi lo))
                 then 0 else 1) in *.
    set (dist := fmul fhalf (fadd (vget hi axis) (vget lo axis))).
    destruct (IH fuel (vset lo axis dist) hi (num + 1))
      as (c0 & E0 & S0 & C0 & L0); [lia..|].
    rewrite E0.
    destruct (IH fuel lo (vset hi axis dist) (num + 1 + nodes_below k))
      as (c1 & E1 & S1 & C1 & L1); [lia..|].
    rewrite E1.
    eexists. split; [f_equal; f_equal; lia|].
    split; [|split].
    + cbn [sector_shape].
      replace (AREA_DEPTH - Z.of_nat (S k) + 1)
        with (AREA_DEPTH - Z.of_nat k) by lia.
      repeat split; try assumption; lia.
    + cbn [sector_count]. lia.
    + cbn [sector_slots]. rewrite L0, L1.
      rewrite (seqZ_cons num) by lia. f_equal.
      replace (Z.pred (1 + nodes_below k + nodes_below k))
        with (nodes_below k + nodes_below k) by lia.
      rewrite seqZ_app by lia. reflexivity.
Qed.
End BuildProperties.

(** C7. From any bounds of the map [SV_ClearWorld] builds, starting at
    depth 0, a tree of exactly [2^(AREA_DEPTH+1) - 1 = 31] nodes, stored
    in the slots 0 to 30 in the order they are made. Every node made at a
    depth below [AREA_DEPTH] has two children and splits the longer
    horizontal extent of its box at the middle; every node made at
    [AREA_DEPTH] is a leaf without children. The tree depends on the
    bounds of the map only, not on the previous state nor on the other
    collaborators. *)
Theorem C7_tree_construction
        {F : Type} {ops : FloatOps F} {laws : FloatLaws ops}
        (O : Oracles F) (w : world F) :
  exists w',
    SV_ClearWorld O w = Some w'
    /\ sv_numworldSectors w' = 2 ^ (AREA_DEPTH + 1) - 1
    /\ sv_numworldSectors w' = 31
    /\ sector_count (sv_worldSectors w') = 31
    /\ sector_slots (sv_worldSectors w') = seqZ 0 31
    /\ sector_shape 0 (fst (CM_WorldBounds O)) (snd (CM_WorldBounds O))
                    (sv_worldSectors w')
    /\ gentities w' = gentities w /\ svEntities w' = svEntities w
    /\ forall (O2 : Oracles F) (w2 : world F),
         CM_WorldBounds O2 = CM_WorldBounds O ->
         exists w2', SV_ClearWorld O2 w2 = Some w2'
                     /\ sv_worldSectors w2' = sv_worldSectors w'.
Proof.
  assert (Hbuild : forall lo hi, exists t,
             SV_CreateworldSector (Z.to_nat AREA_NODES) 0 lo hi 0
             = Some (t, 31)
             /\ sector_shape 0 lo hi t /\ sector_count t = 31
             /\ sector_slots t = seqZ 0 31).
  { intros lo hi.
    destruct (SV_CreateworldSector_levels 4 (Z.to_nat AREA_NODES) lo hi 0)
      as (t & E & S & C & L); [lia | unfold AREA_NODES; lia | lia | | ].
    - unfold nodes_below, AREA_NODES. simpl. lia.
    - exists t. repeat split; assumption. }
  unfold SV_ClearWorld.
  destruct (CM_WorldBounds O) as [lo hi] eqn:EB.
  destruct (Hbuild lo hi) as (t & E & S & C & L).
  rewrite E. eexists. split; [reflexivity|].
  cbn [sv_numworldSectors sv_worldSectors gentities svEntities fst snd].
  repeat split; try assumption.
  intros O2 w2 EB2. unfold SV_ClearWorld. rewrite EB2, E.
  eexists. split; reflexivity.
Qed.

Lemma C7_tree_construction_witness :
  exists w',
    SV_ClearWorld (demo_oracles None) (zero_world (F := Q)) = Some w'
    /\ sv_numworldSectors w' = 31
    /\ sector_count (sv_worldSectors w') = 31.
Proof.
  destruct (@C7_tree_construction Q Q_ops Q_laws (demo_oracles None)
                                  zero_world)
    as (w' & E & _ & N & C & _).
  exists w'. repeat split; assumption.
Defined.

(** ** The size code of [SV_LinkEntity] *)

Lemma clamp_1_255_spec (i : Z) : clamp_1_255 i = clamp 1 255 i.
Proof.
  unfold clamp_1_255, clamp.
  destruct (Z.ltb_spec i 1); destruct (Z.ltb_spec 255 1);
    try destruct (Z.ltb_spec 255 i); lia.
Qed.

Lemma clamp_range (lo hi x : Z) : lo <= hi -> lo <= clamp lo hi x <= hi.
Proof. unfold clamp. lia. Qed.

(** Below [2^n] the bits of [b] do not meet those of [a << n]. *)
Lemma lor_shiftl_add (a b n : Z) :
  0 <= n -> 0 <= b < 2 ^ n -> Z.lor (Z.shiftl a n) b = a * 2 ^ n + b.
Proof.
  intros Hn Hb.
  assert (Hland : Z.land (Z.shiftl a n) b = 0).
  { apply Z.bits_inj'. intros m Hm.
    rewrite Z.land_spec, Z.bits_0.
    destruct (Z.lt_ge_cases m n) as [Hlt | Hge].
    - rewrite Z.shiftl_spec_low by lia. reflexivity.
    - replace (Z.testbit b m) with false; [apply andb_false_r|].
      symmetry. destruct (Z.eq_dec b 0) as [-> | Hb0]; [apply Z.bits_0|].
      apply Z.bits_above_log2; [lia|].
      apply Z.lt_le_trans with n; [|lia].
      apply Z.log2_lt_pow2; lia. }
  rewrite <- Z.lxor_lor by assumption.
  rewrite <- Z.add_nocarry_lxor by assumption.
  now rewrite Z.shiftl_mul_pow2.
Qed.

(** Three bytes packed with shifts and ors are the sum of their
    weighted values. *)
Lemma pack_bytes (k j i : Z) :
  0 <= k -> 0 <= j < 256 -> 0 <= i < 256 ->
  Z.lor (Z.lor (Z.shiftl k 16) (Z.shiftl j 8)) i = k * 65536 + j * 256 + i.
Proof.
  intros Hk Hj Hi.
  assert (E : Z.shiftl k 16 = Z.shiftl (Z.shiftl k 8) 8)
    by (rewrite Z.shiftl_shiftl by lia; reflexivity).
  rewrite E, <- Z.shiftl_lor.
  rewrite (lor_shiftl_add k j 8) by (simpl; lia).
  rewrite (lor_shiftl_add (k * 2 ^ 8 + j) i 8) by (simpl; lia).
  change (2 ^ 8) with 256. ring.
Qed.

Section SolidProperties.
Context {F : Type} {ops : FloatOps F} (K : Constants) (O : Oracles F).

Lemma gentity_put_same (num : Z) (g : sharedEntityMapper_t F) (w : world F) :
  SV_GentityMapperNum (put_gentity num g w) num = g.
Proof.
  unfold SV_GentityMapperNum, put_gentity; simpl.
  now rewrite lookup_insert_eq.
Qed.

Lemma gentity_put_other (num n : Z) (g : sharedEntityMapper_t F) (w : world F) :
  num <> n ->
  SV_GentityMapperNum (put_gentity num g w) n = SV_GentityMapperNum w n.
Proof.
  intros Hne. unfold SV_GentityMapperNum, put_gentity; simpl.
  now rewrite lookup_insert_ne.
Qed.

Lemma gentity_put_svEntity (num n : Z) (e : svEntity_t) (w : world F) :
  SV_GentityMapperNum (put_svEntity num e w) n = SV_GentityMapperNum w n.
Proof. reflexivity. Qed.

Lemma gentity_put_sectors (t : worldSector_t F) (n : Z) (w : world F) :
  SV_GentityMapperNum (put_sectors t w) n = SV_GentityMapperNum w n.
Proof. reflexivity. Qed.

Lemma gentity_Com_Printf (msg : string) (n : Z) (w : world F) :
  SV_GentityMapperNum (Com_Printf msg w) n = SV_GentityMapperNum w n.
Proof. reflexivity. Qed.

(** [SV_UnlinkEntity] changes nothing of the entity but [linked]. *)
Lemma SV_UnlinkEntity_gentity (num : Z) (w : world F) :
  SV_GentityMapperNum (SV_UnlinkEntity num w) num
  = set_linked false (SV_GentityMapperNum w num).
Proof.
  unfold SV_UnlinkEntity.
  destruct (worldSector (SV_SvEntityForGentityMapper w num)) as [ws|].
  - destruct (unlink_chain _ _);
      rewrite ?gentity_put_sectors, ?gentity_Com_Printf, gentity_put_svEntity;
      apply gentity_put_same.
  - apply gentity_put_same.
Qed.

(** The entity after [SV_LinkEntity], in terms of the entity before:
    the size code is that of the entity as the game left it. *)
Lemma SV_LinkEntity_solid (num : Z) (w : world F) :
  solid (s (SV_GentityMapperNum (SV_LinkEntity K O num w) num))
  = encode_solid K (SV_GentityMapperNum w num).
Proof.
  unfold SV_LinkEntity.
  set (w1 := match worldSector (SV_SvEntityForGentityMapper w num) with
             | Some _ => SV_UnlinkEntity num w
             | None => w
             end).
  assert (E1 : encode_solid K (SV_GentityMapperNum w1 num)
               = encode_solid K (SV_GentityMapperNum w num)).
  { unfold w1.
    destruct (worldSector (SV_SvEntityForGentityMapper w num)); [|reflexivity].
    now rewrite SV_UnlinkEntity_gentity. }
  rewrite <- E1. clear E1. generalize w1. clear w1. intros w1.
  destruct (link_absbox O _) as [lo hi].
  destruct (CM_BoxLeafnums O lo hi MAX_TOTAL_ENT_LEAFS) as [leafs lastLeaf].
  destruct (Z.of_nat (length leafs) =? 0).
  - rewrite gentity_put_svEntity, gentity_put_same. reflexivity.
  - destruct (link_areas O leafs) as [a1 a2].
    destruct (link_clusters K O leafs []) as [clusters broke].
    rewrite gentity_put_same. reflexivity.
Qed.
End SolidProperties.

(** C8. For an entity that is not a brush model and whose contents meet
    [CONTENTS_SOLID | CONTENTS_BODY], [SV_LinkEntity] stores in [solid]
    the value [(clamp(maxs[2]+32) << 16) | (clamp(-mins[2]) << 8) |
    clamp(maxs[0])], each extent clamped to 1..255, except that a value
    equal to [SOLID_BMODEL] has its low byte lowered by one; the value
    stored is never [SOLID_BMODEL]. With no such contents the value
    stored is 0. *)
Theorem C8_solid_encoding
        {F : Type} {ops : FloatOps F} (K : Constants) (O : Oracles F)
        (w : world F) (num : Z) :
  let g := SV_GentityMapperNum w num in
  let stored := solid (s (SV_GentityMapperNum (SV_LinkEntity K O num w) num)) in
  bmodel (r g) = false ->
  (Z.land (contents (r g)) (Z.lor (CONTENTS_SOLID K) (CONTENTS_BODY K)) <> 0 ->
   (packed_extents g <> SOLID_BMODEL K -> stored = packed_extents g)
   /\ (packed_extents g = SOLID_BMODEL K ->
       stored = packed_extents g - 1
       /\ Z.land stored 255 = Z.land (packed_extents g) 255 - 1
       /\ Z.shiftr stored 8 = Z.shiftr (packed_extents g) 8)
   /\ stored <> SOLID_BMODEL K)
  /\ (Z.land (contents (r g)) (Z.lor (CONTENTS_SOLID K) (CONTENTS_BODY K)) = 0 ->
      stored = 0).
Proof.
  intros g stored Hb. subst stored. rewrite SV_LinkEntity_solid.
  fold g. unfold encode_solid. rewrite Hb.
  set (mask := Z.lor (CONTENTS_SOLID K) (CONTENTS_BODY K)).
  split.
  - intros Hc. destruct (Z.eqb_spec (Z.land (contents (r g)) mask) 0) as [E|_];
      [contradiction|]. cbn [negb].
    rewrite !clamp_1_255_spec. fold (packed_extents g).
    set (i := clamp 1 255 (ftrunc (v0 (maxs (r g))))).
    set (j := clamp 1 255 (ftrunc (fneg (v2 (mins (r g)))))).
    set (k := clamp 1 255 (ftrunc (fadd (v2 (maxs (r g))) (f_of_Z 32)))).
    assert (Hi : 1 <= i <= 255) by (apply clamp_range; lia).
    assert (Hj : 1 <= j <= 255) by (apply clamp_range; lia).
    assert (Hk : 1 <= k <= 255) by (apply clamp_range; lia).
    assert (Ep : packed_extents g = k * 65536 + j * 256 + i).
    { unfold packed_extents. fold i j k. apply pack_bytes; lia. }
    assert (Em : Z.lor (Z.lor (Z.shiftl k 16) (Z.shiftl j 8)) (i - 1)
                 = k * 65536 + j * 256 + (i - 1)) by (apply pack_bytes; lia).
    rewrite Em.
    destruct (Z.eqb_spec (packed_extents g) (SOLID_BMODEL K)) as [E|NE].
    + split; [intros; contradiction|]. split; [|lia].
      intros _. split; [lia|]. split.
      * change 255 with (Z.ones 8). rewrite !Z.land_ones by lia.
        rewrite Ep. change (2 ^ 8) with 256.
        replace (k * 65536 + j * 256 + (i - 1))
          with ((i - 1) + (k * 256 + j) * 256) by ring.
        replace (k * 65536 + j * 256 + i)
          with (i + (k * 256 + j) * 256) by ring.
        rewrite !Z.mod_add by lia. rewrite !Z.mod_small by lia. reflexivity.
      * rewrite !Z.shiftr_div_pow2 by lia. rewrite Ep. change (2 ^ 8) with 256.
        replace (k * 65536 + j * 256 + (i - 1))
          with ((i - 1) + (k * 256 + j) * 256) by ring.
        replace (k * 65536 + j * 256 + i)
          with (i + (k * 256 + j) * 256) by ring.
        rewrite !Z.div_add by lia. rewrite !Z.div_small by lia. reflexivity.
    + split; [reflexivity|]. split; [intros; contradiction | exact NE].
  - intros Hc. rewrite Hc. reflexivity.
Qed.

Lemma C8_solid_encoding_witness :
  match demo_world None [(1, 0%Q, 255%Q)] with
  | Some w =>
    solid (s (SV_GentityMapperNum
                (SV_LinkEntity jka_constants (demo_oracles None) 1 w) 1))
    = 16777214
  | None => False
  end.
Proof.
  destruct (demo_world None [(1, 0%Q, 255%Q)]) as [w|] eqn:Hw;
    [|vm_compute in Hw; discriminate].
  assert (Hg : SV_GentityMapperNum w 1
               = set_linked true
                   (set_linkcount 1
                      (set_absbox (Vec3 (-256)%Q (-256)%Q (-256)%Q)
                                  (Vec3 256%Q 256%Q 256%Q)
                                  (set_solid 16777214
                                             (demo_box 1 1023 0%Q 255%Q))))).
  { vm_compute in Hw. injection Hw as <-. vm_compute. reflexivity. }
  pose proof (@C8_solid_encoding Q Q_ops jka_constants (demo_oracles None) w 1)
    as H.
  cbv zeta in H. rewrite Hg in H.
  destruct H as [H _]; [reflexivity|].
  destruct H as (_ & H & _); [vm_compute; discriminate|].
  destruct H as [H _]; [vm_compute; reflexivity|].
  rewrite <- Hg in H. rewrite H. rewrite Hg. vm_compute. reflexivity.
Defined.

(** ** Unlinking *)

Section UnlinkProperties.
Context {F : Type} {ops : FloatOps F}.

Lemma svEntity_put_same (num : Z) (e : svEntity_t) (w : world F) :
  SV_SvEntityForGentityMapper (put_svEntity num e w) num = e.
Proof.
  unfold SV_SvEntityForGentityMapper, put_svEntity; simpl.
  now rewrite lookup_insert_eq.
Qed.

Lemma svEntity_put_other (num n : Z) (e : svEntity_t) (w : world F) :
  num <> n ->
  SV_SvEntityForGentityMapper (put_svEntity num e w) n
  = SV_SvEntityForGentityMapper w n.
Proof.
  intros Hne. unfold SV_SvEntityForGentityMapper, put_svEntity; simpl.
  now rewrite lookup_insert_ne.
Qed.

Lemma set_linked_twice (b : bool) (g : sharedEntityMapper_t F) :
  set_linked b (set_linked b g) = set_linked b g.
Proof. reflexivity. Qed.

(** After [SV_UnlinkEntity] the entity has no sector. *)
Lemma SV_UnlinkEntity_worldSector (num : Z) (w : world F) :
  worldSector (SV_SvEntityForGentityMapper (SV_UnlinkEntity num w) num) = None.
Proof.
  unfold SV_UnlinkEntity.
  destruct (worldSector (SV_SvEntityForGentityMapper w num)) as [ws|] eqn:E.
  - destruct (unlink_chain _ _);
      unfold put_sectors, Com_Printf, SV_SvEntityForGentityMapper; simpl;
      now rewrite lookup_insert_eq.
  - exact E.
Qed.

(** On an entity without sector [SV_UnlinkEntity] only clears [linked]. *)
Lemma SV_UnlinkEntity_unlinked (num : Z) (w : world F) :
  worldSector (SV_SvEntityForGentityMapper w num) = None ->
  SV_UnlinkEntity num w
  = put_gentity num (set_linked false (SV_GentityMapperNum w num)) w.
Proof. intros E. unfold SV_UnlinkEntity. now rewrite E. Qed.
End UnlinkProperties.

(** C9. [SV_UnlinkEntity] on an entity without owning sector changes no
    chain of any sector, no sector pointer and prints nothing; the entity
    stays unlinked, with [linked] cleared, and the other entities are as
    before. Unlinking twice in a row gives exactly the state that
    unlinking once gives, and the second call prints nothing. *)
Theorem C9_unlink_unlinked_noop
        {F : Type} {ops : FloatOps F} (w : world F) (num : Z) :
  (worldSector (SV_SvEntityForGentityMapper w num) = None ->
   let w' := SV_UnlinkEntity num w in
   sv_worldSectors w' = sv_worldSectors w
   /\ sv_numworldSectors w' = sv_numworldSectors w
   /\ svEntities w' = svEntities w
   /\ console w' = console w
   /\ worldSector (SV_SvEntityForGentityMapper w' num) = None
   /\ SV_GentityMapperNum w' num = set_linked false (SV_GentityMapperNum w num)
   /\ (forall n, n <> num -> gentities w' !! n = gentities w !! n)
   /\ (linked (r (SV_GentityMapperNum w num)) = false ->
       is_Some (gentities w !! num) -> w' = w))
  /\ SV_UnlinkEntity num (SV_UnlinkEntity num w) = SV_UnlinkEntity num w.
Proof.
  split.
  - intros E w'. subst w'. rewrite (SV_UnlinkEntity_unlinked num w E).
    repeat split; try reflexivity.
    + exact E.
    + apply gentity_put_same.
    + intros n Hn. unfold put_gentity; simpl. now rewrite lookup_insert_ne.
    + intros Hl [g Hg]. unfold put_gentity. destruct w as [t k ge se co].
      simpl in *. f_equal. apply insert_id.
      unfold SV_GentityMapperNum in *. simpl in *. rewrite Hg in *. simpl in *.
      f_equal. destruct g as [gs gr gg ga]. destruct gr. simpl in *.
      subst. reflexivity.
  - rewrite (SV_UnlinkEntity_unlinked num (SV_UnlinkEntity num w))
      by apply SV_UnlinkEntity_worldSector.
    rewrite SV_UnlinkEntity_gentity, set_linked_twice.
    unfold SV_UnlinkEntity.
    destruct (worldSector (SV_SvEntityForGentityMapper w num)) as [ws|].
    + destruct (unlink_chain _ _);
        unfold put_gentity, put_sectors, Com_Printf, put_svEntity; simpl;
        now rewrite insert_insert_eq.
    + unfold put_gentity; simpl. now rewrite insert_insert_eq.
Qed.

Lemma C9_unlink_unlinked_noop_witness :
  match demo_world None [(1, 0%Q, 5%Q)] with
  | Some w =>
    let w1 := SV_UnlinkEntity 1 w in
    sv_worldSectors (SV_UnlinkEntity 1 w1) = sv_worldSectors w1
    /\ console (SV_UnlinkEntity 1 w1) = console w1
    /\ SV_UnlinkEntity 1 w1 = w1
  | None => False
  end.
Proof.
  destruct (demo_world None [(1, 0%Q, 5%Q)]) as [w|] eqn:Hw;
    [|vm_compute in Hw; discriminate].
  cbv zeta.
  destruct (C9_unlink_unlinked_noop (SV_UnlinkEntity 1 w) 1) as [H _].
  destruct H as (Ht & _ & _ & Hc & _ & _ & _ & Hsame).
  { vm_compute in Hw. injection Hw as <-. vm_compute. reflexivity. }
  repeat split; try assumption.
  apply Hsame.
  - vm_compute in Hw. injection Hw as <-. vm_compute. reflexivity.
  - vm_compute in Hw. injection Hw as <-. vm_compute. eexists. reflexivity.
Defined.

(** ** [SV_Trace] *)

(** C10. A null [mins] or [maxs] handed to [SV_Trace] is replaced by
    [vec3_origin] before any use: the call gives what the same call gives
    with the zero vector in place of each missing bound. *)
Theorem C10_null_bounds_are_origin
        {F : Type} {ops : FloatOps F} (K : Constants) (O : Oracles F)
        (w : world F) (start end_ : vec3_t F) (mins_ maxs_ : option (vec3_t F))
        (passEntityNum_ contentmask_ capsule traceFlags_ useLod_ : Z) :
  SV_Trace K O w start None maxs_ end_ passEntityNum_ contentmask_ capsule
           traceFlags_ useLod_
  = SV_Trace K O w start (Some vec3_origin) maxs_ end_ passEntityNum_
             contentmask_ capsule traceFlags_ useLod_
  /\ SV_Trace K O w start mins_ None end_ passEntityNum_ contentmask_ capsule
              traceFlags_ useLod_
     = SV_Trace K O w start mins_ (Some vec3_origin) end_ passEntityNum_
                contentmask_ capsule traceFlags_ useLod_
  /\ SV_Trace K O w start None None end_ passEntityNum_ contentmask_ capsule
              traceFlags_ useLod_
     = SV_Trace K O w start (Some vec3_origin) (Some vec3_origin) end_
                passEntityNum_ contentmask_ capsule traceFlags_ useLod_.
Proof. repeat split. Qed.

(** C5. When the clip against the world gives a fraction equal to 0,
    [SV_Trace] returns that trace with the entity number set to
    [ENTITYNUM_WORLD]; nothing is asked of the other modules after the
    world clip (no area query, no candidate examined, no entity clipped
    against), and the result is the same whatever the entities and the
    sectors are. *)
Theorem C5_blocked_by_world
        {F : Type} {ops : FloatOps F} {laws : FloatLaws ops}
        (K : Constants) (O : Oracles F)
        (w : world F) (start end_ : vec3_t F) (mins_ maxs_ : option (vec3_t F))
        (passEntityNum_ contentmask_ capsule traceFlags_ useLod_ : Z) :
  let world_trace :=
    CM_BoxTrace O start end_ (default vec3_origin mins_)
                (default vec3_origin maxs_) contentmask_ capsule in
  feqb (fraction world_trace) (f_of_Z 0) = true ->
  SV_Trace K O w start mins_ maxs_ end_ passEntityNum_ contentmask_ capsule
           traceFlags_ useLod_
  = (set_entityNum (ENTITYNUM_WORLD K) world_trace, [EvWorldClip])
  /\ forall w2 : world F,
       SV_Trace K O w2 start mins_ maxs_ end_ passEntityNum_ contentmask_
                capsule traceFlags_ useLod_
       = SV_Trace K O w start mins_ maxs_ end_ passEntityNum_ contentmask_
                  capsule traceFlags_ useLod_.
Proof.
  intros world_trace H0.
  assert (E : forall w', SV_Trace K O w' start mins_ maxs_ end_ passEntityNum_
                                 contentmask_ capsule traceFlags_ useLod_
                         = (set_entityNum (ENTITYNUM_WORLD K) world_trace,
                            [EvWorldClip])).
  { intros w'. unfold SV_Trace.
    replace (match mins_ with Some v => v | None => vec3_origin end)
      with (default vec3_origin mins_) by (destruct mins_; reflexivity).
    replace (match maxs_ with Some v => v | None => vec3_origin end)
      with (default vec3_origin maxs_) by (destruct maxs_; reflexivity).
    fold world_trace. cbn [fraction set_entityNum].
    rewrite (feqb_0_not_1 _ H0). cbn [negb]. rewrite H0. reflexivity. }
  split; [apply E|]. intros w2. now rewrite !E.
Qed.

Lemma C5_blocked_by_world_witness :
  match demo_world (Some ((-10)%Q, 110%Q)) [(1, 50%Q, 5%Q)] with
  | Some w =>
    let res := SV_Trace jka_constants (demo_oracles (Some ((-10)%Q, 110%Q))) w
                        (Vec3 0%Q 0%Q 0%Q) None None (Vec3 100%Q 0%Q 0%Q)
                        1023 1 0 0 0 in
    entityNum (fst res) = 1022 /\ snd res = [EvWorldClip]
  | None => False
  end.
Proof.
  destruct (demo_world (Some ((-10)%Q, 110%Q)) [(1, 50%Q, 5%Q)]) as [w|] eqn:Hw;
    [|vm_compute in Hw; discriminate].
  cbv zeta.
  destruct (@C5_blocked_by_world Q Q_ops Q_laws jka_constants
              (demo_oracles (Some ((-10)%Q, 110%Q))) w
              (Vec3 0%Q 0%Q 0%Q) (Vec3 100%Q 0%Q 0%Q) None None
              1023 1 0 0 0) as [E _].
  { vm_compute. reflexivity. }
  rewrite E. split; reflexivity.
Defined.

(** ** The loop of [SV_ClipMoveToEntities] *)

Section ClipProperties.
Context {F : Type} {ops : FloatOps F} (K : Constants) (O : Oracles F).

(** Without the Ghoul2 flag the Ghoul2 part does nothing. *)
Lemma clip_ghoul2_off (clip : moveclip_t) (oldTrace trace : trace_t F)
      (touch : sharedEntityMapper_t F) :
  flag_set (traceFlags clip) (G2TRFLAG_DOGHOULTRACE K) = false ->
  clip_ghoul2 K O clip oldTrace trace touch = (clip, []).
Proof. intros H. unfold clip_ghoul2. now rewrite H. Qed.

(** A candidate that is skipped leaves everything as it is. *)
Lemma clip_entity_skipped (w : world F) (passOwnerNum : Z)
      (thisOwnerShared : bool) (num : Z) (st : moveclip_t * trace_t F)
      (why : clip_skip) :
  clip_filter K (fst st) passOwnerNum thisOwnerShared num
              (SV_GentityMapperNum w num) = Some why ->
  clip_entity K O w passOwnerNum thisOwnerShared num st
  = (st, [EvExamine num]).
Proof.
  intros H. destruct st as [clip oldTrace]. unfold clip_entity.
  simpl in H. now rewrite H.
Qed.

(** A candidate that is not skipped, without the Ghoul2 flag: the exact
    trace is aggregated into [clip->trace]. *)
Lemma clip_entity_clipped (w : world F) (passOwnerNum : Z)
      (thisOwnerShared : bool) (num : Z) (clip : moveclip_t)
      (oldTrace : trace_t F) :
  clip_filter K clip passOwnerNum thisOwnerShared num
              (SV_GentityMapperNum w num) = None ->
  flag_set (traceFlags clip) (G2TRFLAG_DOGHOULTRACE K) = false ->
  clip_entity K O w passOwnerNum thisOwnerShared num (clip, oldTrace)
  = ((set_clip_trace
        (fst (clip_aggregate (clip_trace clip) (entity_trace K O w clip num)
                             (number (s (SV_GentityMapperNum w num)))))
        clip, oldTrace),
     [EvExamine num; EvEntityClip num]).
Proof.
  intros Hf Hg. unfold clip_entity. rewrite Hf, Hg.
  fold (entity_trace K O w clip num).
  destruct (clip_aggregate _ _ _) as [agg tr] eqn:E.
  rewrite clip_ghoul2_off by exact Hg. reflexivity.
Qed.

(** The aggregation when the fraction of the new trace is smaller. *)
Lemma clip_aggregate_better (agg trace : trace_t F) (n : Z) :
  fltb (fraction trace) (fraction agg) = true ->
  fst (clip_aggregate agg trace n)
  = Build_trace_t (allsolid trace) (startsolid agg || startsolid trace)
                  (fraction trace) (endpos trace) (plane_normal trace)
                  (surfaceFlags trace) (trace_contents trace) n.
Proof.
  intros H. unfold clip_aggregate.
  destruct (allsolid trace) eqn:Ea; [|destruct (startsolid trace) eqn:Es];
    cbn [fraction set_allsolid set_startsolid set_entityNum];
    rewrite H; unfold set_startsolid, set_entityNum, set_allsolid; cbn;
    rewrite ?Ea, ?Es; f_equal;
    destruct (startsolid agg), (startsolid trace);
    try reflexivity; congruence.
Qed.
End ClipProperties.

(** C3. When the exact trace of a candidate has a fraction strictly
    below the fraction of [clip->trace], the trace of the candidate
    replaces [clip->trace] (fraction, end point, normal and the other
    fields, with the number of the candidate as entity number), except
    that [startsolid] becomes the disjunction of the [startsolid] kept so
    far and that of the new trace: a [startsolid] seen before is not
    lost. This is what the aggregation does, and what one pass of the
    loop does for a candidate that is not skipped when the Ghoul2 flag is
    not set. *)
Theorem C3_better_hit_replaces
        {F : Type} {ops : FloatOps F} (K : Constants) (O : Oracles F)
        (w : world F) (passOwnerNum : Z) (thisOwnerShared : bool) (num : Z)
        (clip : moveclip_t) (oldTrace : trace_t F) :
  let touch := SV_GentityMapperNum w num in
  let trace := entity_trace K O w clip num in
  let prev := clip_trace clip in
  let replaced :=
    Build_trace_t (allsolid trace) (startsolid prev || startsolid trace)
                  (fraction trace) (endpos trace) (plane_normal trace)
                  (surfaceFlags trace) (trace_contents trace)
                  (number (s touch)) in
  fltb (fraction trace) (fraction prev) = true ->
  fst (clip_aggregate prev trace (number (s touch))) = replaced
  /\ (clip_filter K clip passOwnerNum thisOwnerShared num touch = None ->
      flag_set (traceFlags clip) (G2TRFLAG_DOGHOULTRACE K) = false ->
      clip_trace (fst (fst (clip_entity K O w passOwnerNum thisOwnerShared
                                        num (clip, oldTrace)))) = replaced)
  /\ (startsolid prev = true -> startsolid replaced = true).
Proof.
  intros touch trace prev replaced H.
  pose proof (clip_aggregate_better prev trace (number (s touch)) H) as E.
  split; [exact E|]. split.
  - intros Hf Hg. rewrite (clip_entity_clipped K O) by assumption.
    cbn [fst clip_trace set_clip_trace]. exact E.
  - intros Hs. subst replaced. cbn. now rewrite Hs.
Qed.

(** C4 (amended). A candidate whose owner is the pass entity of the
    trace: if its flags have [SVF_OWNERNOTSHARED] and the content mask is
    [MASK_SHOT] or [MASK_SHOT | CONTENTS_LIGHTSABER], the owner rule does
    not skip it; unless it is the pass entity itself no rule on owners
    skips it, and it goes on to the tests on the contents and, when it
    passes them, to the exact clip. With any other mask, or without
    [SVF_OWNERNOTSHARED], it is skipped: nothing is clipped and
    [clip->trace] stays as it is. *)
Theorem C4_owned_by_pass_entity
        {F : Type} {ops : FloatOps F} (K : Constants) (O : Oracles F)
        (w : world F) (passOwnerNum : Z) (thisOwnerShared : bool) (num : Z)
        (clip : moveclip_t) (oldTrace : trace_t F) :
  let touch := SV_GentityMapperNum w num in
  let not_shared := flag_set (svFlags (r touch)) (SVF_OWNERNOTSHARED K) in
  let shot_mask :=
    (contentmask clip =? MASK_SHOT K)
    || (contentmask clip =? Z.lor (MASK_SHOT K) (CONTENTS_LIGHTSABER K)) in
  passEntityNum clip <> ENTITYNUM_NONE K ->
  ownerNum (r touch) = passEntityNum clip ->
  (not_shared && shot_mask = true ->
   clip_filter K clip passOwnerNum thisOwnerShared num touch
   <> Some SkipOwnedByPass
   /\ (num <> passEntityNum clip ->
       clip_owner_rules K clip passOwnerNum thisOwnerShared num touch = None
       /\ clip_filter K clip passOwnerNum thisOwnerShared num touch
          = clip_content_rules K clip touch
       /\ (clip_content_rules K clip touch = None ->
           In (EvEntityClip num)
              (snd (clip_entity K O w passOwnerNum thisOwnerShared num
                                (clip, oldTrace))))))
  /\ (not_shared && shot_mask = false ->
      (clip_filter K clip passOwnerNum thisOwnerShared num touch
       = Some SkipPassEntity
       \/ clip_filter K clip passOwnerNum thisOwnerShared num touch
          = Some SkipOwnedByPass)
      /\ clip_entity K O w passOwnerNum thisOwnerShared num (clip, oldTrace)
         = ((clip, oldTrace), [EvExamine num])).
Proof.
  intros touch not_shared shot_mask Hpass Howner.
  assert (Hp : negb (passEntityNum clip =? ENTITYNUM_NONE K) = true).
  { apply negb_true_iff. now apply Z.eqb_neq. }
  assert (Ho : (ownerNum (r touch) =? passEntityNum clip) = true)
    by now apply Z.eqb_eq.
  split.
  - intros Hcase.
    apply andb_true_iff in Hcase as [Hns Hmask].
    assert (Hrule : (if flag_set (svFlags (r touch)) (SVF_OWNERNOTSHARED K)
                     then negb (contentmask clip
                                =? Z.lor (MASK_SHOT K) (CONTENTS_LIGHTSABER K))
                          && negb (contentmask clip =? MASK_SHOT K)
                     else true) = false).
    { fold not_shared. rewrite Hns. subst shot_mask.
      destruct (contentmask clip =? MASK_SHOT K);
        destruct (contentmask clip
                  =? Z.lor (MASK_SHOT K) (CONTENTS_LIGHTSABER K));
        try discriminate; reflexivity. }
    assert (Hr : num <> passEntityNum clip ->
                 clip_owner_rules K clip passOwnerNum thisOwnerShared num touch
                 = None).
    { intros Hnum. unfold clip_owner_rules. rewrite Hp, Ho.
      destruct (Z.eqb_spec num (passEntityNum clip)) as [E|_]; [contradiction|].
      fold touch. rewrite Hrule. fold not_shared. rewrite Hns. cbn.
      rewrite ?andb_false_r. reflexivity. }
    split.
    + unfold clip_filter.
      destruct (Z.eq_dec num (passEntityNum clip)) as [E | NE].
      * unfold clip_owner_rules. rewrite Hp.
        destruct (Z.eqb_spec num (passEntityNum clip)) as [_|NE];
          [discriminate | contradiction].
      * rewrite (Hr NE). unfold clip_content_rules.
        destruct (Z.land _ _ =? 0); [discriminate|].
        destruct (is_shot_mask K (contentmask clip) && _); discriminate.
    + intros Hnum. split; [exact (Hr Hnum)|]. split.
      * unfold clip_filter. now rewrite (Hr Hnum).
      * intros Hc. unfold clip_entity. fold touch.
        unfold clip_filter. rewrite (Hr Hnum), Hc.
        destruct (clip_aggregate _ _ _) as [agg tr].
        destruct (clip_ghoul2 _ _ _ _ _ _) as [clip' evs].
        cbn. right. now left.
  - intros Hcase.
    assert (Hf : clip_filter K clip passOwnerNum thisOwnerShared num touch
                 = Some SkipPassEntity
                 \/ clip_filter K clip passOwnerNum thisOwnerShared num touch
                    = Some SkipOwnedByPass).
    { unfold clip_filter, clip_owner_rules. rewrite Hp, Ho.
      destruct (num =? passEntityNum clip); [now left|]. right.
      fold touch. fold not_shared.
      destruct not_shared; [|reflexivity].
      subst shot_mask. cbn in Hcase.
      apply orb_false_iff in Hcase as [H1 H2]. rewrite H1, H2. reflexivity. }
    split; [exact Hf|].
    destruct Hf as [Hf | Hf];
      apply (clip_entity_skipped K O w passOwnerNum thisOwnerShared num
                                 (clip, oldTrace) _ Hf).
Qed.

(** In the examples the world is the value of a closed term: the
    side conditions are settled by evaluation. *)
Ltac by_evaluation Hw :=
  vm_compute in Hw; injection Hw as <-; vm_compute;
  first [reflexivity | discriminate | eexists; reflexivity].

Lemma C3_better_hit_replaces_witness :
  match demo_world None [(1, 50%Q, 5%Q)] with
  | Some w =>
    let res := fst (clip_aggregate (clip_trace (demo_clip 1023 1 0))
                      (entity_trace jka_constants (demo_oracles None) w
                                    (demo_clip 1023 1 0) 1) 1) in
    entityNum res = 1 /\ Qeq_bool (fraction res) (359 # 800)%Q = true
  | None => False
  end.
Proof.
  destruct (demo_world None [(1, 50%Q, 5%Q)]) as [w|] eqn:Hw;
    [|vm_compute in Hw; discriminate].
  cbv zeta.
  destruct (@C3_better_hit_replaces Q Q_ops jka_constants (demo_oracles None)
              w (-1) true 1 (demo_clip 1023 1 0)
              (zero_trace (F := Q))) as (E & _ & _);
    [by_evaluation Hw|].
  assert (En : number (s (SV_GentityMapperNum w 1)) = 1) by by_evaluation Hw.
  rewrite En in E. rewrite E. split; [reflexivity|].
  by_evaluation Hw.
Defined.

Lemma C4_owned_by_pass_entity_witness :
  match demo_world_of None [OpGame 7 (demo_missile 7 5 1 50%Q 5%Q); OpLink 7] with
  | Some w =>
    clip_owner_rules jka_constants (demo_clip 5 769 0) (-1) true 7
                     (SV_GentityMapperNum w 7) = None
    /\ clip_entity jka_constants (demo_oracles None) w (-1) true 7
                   (demo_clip 5 1 0, zero_trace)
       = ((demo_clip 5 1 0, zero_trace), [EvExamine 7])
  | None => False
  end.
Proof.
  destruct (demo_world_of None
              [OpGame 7 (demo_missile 7 5 1 50%Q 5%Q); OpLink 7])
    as [w|] eqn:Hw; [|vm_compute in Hw; discriminate].
  split.
  - destruct (@C4_owned_by_pass_entity Q Q_ops jka_constants
                (demo_oracles None) w (-1) true 7 (demo_clip 5 769 0)
                (zero_trace (F := Q))) as [H _];
      [by_evaluation Hw | by_evaluation Hw |].
    destruct H as [_ H]; [by_evaluation Hw|].
    destruct H as [H _]; [by_evaluation Hw|].
    exact H.
  - destruct (@C4_owned_by_pass_entity Q Q_ops jka_constants
                (demo_oracles None) w (-1) true 7 (demo_clip 5 1 0)
                (zero_trace (F := Q))) as [_ H];
      [by_evaluation Hw | by_evaluation Hw |].
    destruct H as [_ H]; [by_evaluation Hw|].
    exact H.
Defined.

(** The claim C4 read as saying that the candidate is clipped against:
    a missile owned by the pass entity, with [SVF_OWNERNOTSHARED], under
    [MASK_SHOT], whose contents have no bit of the mask. No owner rule
    skips it, the test on the contents does, and nothing is clipped. *)
Lemma C4_not_shared_but_no_contents :
  match demo_world_of None
          [OpGame 7 (demo_missile 7 5 0 50%Q 5%Q); OpLink 7] with
  | Some w =>
    let O := demo_oracles None in
    let clip := demo_clip 5 769 0 in
    let touch := SV_GentityMapperNum w 7 in
    passEntityNum clip <> ENTITYNUM_NONE jka_constants
    /\ ownerNum (r touch) = passEntityNum clip
    /\ flag_set (svFlags (r touch)) (SVF_OWNERNOTSHARED jka_constants) = true
    /\ contentmask clip = MASK_SHOT jka_constants
    /\ clip_touchlist jka_constants w clip = [7]
    /\ clip_owner_rules jka_constants clip
                        (clip_passOwnerNum jka_constants O w clip)
                        (clip_thisOwnerShared jka_constants O w clip) 7 touch
       = None
    /\ clip_filter jka_constants clip
                   (clip_passOwnerNum jka_constants O w clip)
                   (clip_thisOwnerShared jka_constants O w clip) 7 touch
       = Some SkipContents
    /\ ~ In (EvEntityClip 7)
            (snd (SV_ClipMoveToEntities jka_constants O w clip))
    /\ SV_ClipMoveToEntities jka_constants O w clip
       = (clip, [EvAreaEntities (Vec3 (-1)%Q (-1)%Q (-1)%Q)
                                (Vec3 101%Q 1%Q 1%Q);
                 EvExamine 7])
  | None => False
  end.
Proof.
  destruct (demo_world_of None
              [OpGame 7 (demo_missile 7 5 0 50%Q 5%Q); OpLink 7])
    as [w|] eqn:Hw; [|vm_compute in Hw; discriminate].
  vm_compute in Hw. injection Hw as <-.
  vm_compute. repeat split; try discriminate.
  intros [H | [H | []]]; discriminate.
Qed.

Section ClipLoop.
Context {F : Type} {ops : FloatOps F} (K : Constants) (O : Oracles F).
Context (w : world F) (passOwnerNum : Z) (thisOwnerShared : bool).

Local Abbreviation survives' := (survives K w passOwnerNum thisOwnerShared).
Local Abbreviation agg_step' := (agg_step K O w passOwnerNum thisOwnerShared).
Local Abbreviation agg_loop' := (agg_loop K O w passOwnerNum thisOwnerShared).

Lemma set_clip_trace_same (clip : moveclip_t (F := F)) :
  set_clip_trace (clip_trace clip) clip = clip.
Proof. destruct clip; reflexivity. Qed.

Lemma clip_entity_agg (clip : moveclip_t) (agg oldTrace : trace_t F) (num : Z) :
  flag_set (traceFlags clip) (G2TRFLAG_DOGHOULTRACE K) = false ->
  fst (clip_entity K O w passOwnerNum thisOwnerShared num
                   (set_clip_trace agg clip, oldTrace))
  = (set_clip_trace (agg_step' clip agg num) clip, oldTrace).
Proof.
  intros Hg. unfold agg_step, survives.
  change (clip_filter K clip passOwnerNum thisOwnerShared num
                      (SV_GentityMapperNum w num))
    with (clip_filter K (set_clip_trace agg clip) passOwnerNum
                      thisOwnerShared num (SV_GentityMapperNum w num)).
  destruct (clip_filter K (set_clip_trace agg clip) passOwnerNum
                        thisOwnerShared num (SV_GentityMapperNum w num))
    as [why|] eqn:Hf.
  - now rewrite (clip_entity_skipped K O w _ _ _ (_, _) why Hf).
  - rewrite (clip_entity_clipped K O) by assumption. reflexivity.
Qed.

Lemma clip_loop_agg (clip : moveclip_t) (oldTrace : trace_t F) (l : list Z) :
  flag_set (traceFlags clip) (G2TRFLAG_DOGHOULTRACE K) = false ->
  forall agg,
    fst (clip_loop K O w passOwnerNum thisOwnerShared l
                   (set_clip_trace agg clip, oldTrace))
    = (set_clip_trace (agg_loop' clip l agg) clip, oldTrace).
Proof.
  intros Hg. induction l as [|num rest IH]; intros agg; [reflexivity|].
  cbn [clip_loop agg_loop fst clip_trace set_clip_trace].
  destruct (allsolid agg); [reflexivity|].
  pose proof (clip_entity_agg clip agg oldTrace num Hg) as E.
  destruct (clip_entity K O w passOwnerNum thisOwnerShared num
                        (set_clip_trace agg clip, oldTrace)) as [st evs].
  cbn [fst] in E. subst st.
  specialize (IH (agg_step' clip agg num)).
  destruct (clip_loop K O w passOwnerNum thisOwnerShared rest
                      (set_clip_trace (agg_step' clip agg num) clip, oldTrace))
    as [st' evs'].
  exact IH.
Qed.

(** Candidates that are skipped do not count. *)
Lemma agg_loop_survivors (clip : moveclip_t) (l : list Z) :
  forall agg,
    agg_loop' clip l agg = agg_loop' clip (List.filter (survives' clip) l) agg.
Proof.
  induction l as [|num rest IH]; intros agg; [reflexivity|].
  cbn [agg_loop List.filter].
  destruct (survives' clip num) eqn:Es.
  - cbn [agg_loop]. destruct (allsolid agg); [reflexivity|]. apply IH.
  - destruct (allsolid agg) eqn:Ea.
    + destruct (List.filter (survives' clip) rest); cbn [agg_loop];
        [reflexivity | now rewrite Ea].
    + unfold agg_step at 1. rewrite Es. apply IH.
Qed.

(** The loop over two surviving candidates without solid flags, [a]
    with the smaller fraction, in either order. *)
Lemma agg_loop_two {laws : FloatLaws ops} (clip : moveclip_t) (agg : trace_t F)
      (a b : Z) :
  let ta := entity_trace K O w clip a in
  let tb := entity_trace K O w clip b in
  survives' clip a = true -> survives' clip b = true ->
  allsolid agg = false ->
  allsolid ta = false -> startsolid ta = false ->
  allsolid tb = false -> startsolid tb = false ->
  fltb (fraction ta) (fraction tb) = true ->
  fltb (fraction ta) (fraction agg) = true ->
  let result :=
    Build_trace_t false (startsolid agg) (fraction ta) (endpos ta)
                  (plane_normal ta) (surfaceFlags ta) (trace_contents ta)
                  (number (s (SV_GentityMapperNum w a))) in
  agg_loop' clip [a; b] agg = result /\ agg_loop' clip [b; a] agg = result.
Proof.
  intros ta tb Sa Sb Hagg Aa Ssa Ab Ssb Hab Ha result.
  assert (Hba : fltb (fraction tb) (fraction ta) = false)
    by now apply fltb_asym.
  assert (Estep : forall g, startsolid g = startsolid agg ->
                            fltb (fraction ta) (fraction g) = true ->
                            agg_step' clip g a = result).
  { intros g Es Hg. unfold agg_step. rewrite Sa. fold ta.
    rewrite clip_aggregate_better by exact Hg.
    subst result. rewrite Aa, Ssa, Es, orb_false_r. reflexivity. }
  split.
  - cbn [agg_loop]. rewrite Hagg. rewrite (Estep agg eq_refl Ha).
    cbn [allsolid result].
    unfold agg_step. rewrite Sb. fold tb. unfold clip_aggregate.
    rewrite Ab, Ssb. cbn [fraction result]. rewrite Hba. reflexivity.
  - cbn [agg_loop]. rewrite Hagg.
    assert (Eb : agg_step' clip agg b = agg
                 \/ (allsolid (agg_step' clip agg b) = false
                     /\ startsolid (agg_step' clip agg b) = startsolid agg
                     /\ fraction (agg_step' clip agg b) = fraction tb)).
    { unfold agg_step. rewrite Sb. fold tb.
      destruct (fltb (fraction tb) (fraction agg)) eqn:Hb.
      - right. rewrite clip_aggregate_better by exact Hb.
        cbn. rewrite Ab, Ssb, orb_false_r. repeat split.
      - left. unfold clip_aggregate. rewrite Ab, Ssb, Hb. reflexivity. }
    destruct Eb as [Eb | (Eb1 & Eb2 & Eb3)].
    + rewrite Eb, Hagg. apply Estep; [reflexivity | exact Ha].
    + rewrite Eb1. apply Estep; [exact Eb2 | now rewrite Eb3].
Qed.
End ClipLoop.

(** [SV_ClipMoveToEntities] is the loop over the list of the area
    query. *)
Lemma SV_ClipMoveToEntities_loop
      {F : Type} {ops : FloatOps F} (K : Constants) (O : Oracles F)
      (w : world F) (clip : moveclip_t) :
  fst (SV_ClipMoveToEntities K O w clip)
  = fst (fst (clip_loop K O w (clip_passOwnerNum K O w clip)
                        (clip_thisOwnerShared K O w clip)
                        (clip_touchlist K w clip) (clip, zero_trace))).
Proof.
  unfold SV_ClipMoveToEntities.
  destruct (clip_loop K O w _ _ _ _) as [[clip' old] evs]. reflexivity.
Qed.

(** C6 (amended). Two candidates [a] and [b] are the only ones of the
    list that are not skipped; their exact traces report neither
    [startsolid] nor [allsolid] and the fraction of [a] is strictly below
    that of [b]. If the Ghoul2 flag is not set, the trace against the
    world is not [allsolid] and its fraction is above the fraction of
    [a], then after the loop [clip->trace] has the fraction of [a] and
    the number of [a] as entity number; it is the trace of [a], with the
    [startsolid] of the world trace. The result is the same whether the
    list has [a] before [b] or [b] before [a]; it is the result of
    [SV_ClipMoveToEntities] when the list is the one of the area query. *)
Theorem C6_nearest_of_two
        {F : Type} {ops : FloatOps F} {laws : FloatLaws ops}
        (K : Constants) (O : Oracles F) (w : world F)
        (passOwnerNum : Z) (thisOwnerShared : bool)
        (clip : moveclip_t) (oldTrace : trace_t F)
        (l1 l2 : list Z) (a b : Z) :
  let ta := entity_trace K O w clip a in
  let tb := entity_trace K O w clip b in
  let after := fun l =>
    clip_trace (fst (fst (clip_loop K O w passOwnerNum thisOwnerShared l
                                    (clip, oldTrace)))) in
  flag_set (traceFlags clip) (G2TRFLAG_DOGHOULTRACE K) = false ->
  List.filter (survives K w passOwnerNum thisOwnerShared clip) l1 = [a; b] ->
  List.filter (survives K w passOwnerNum thisOwnerShared clip) l2 = [b; a] ->
  allsolid ta = false -> startsolid ta = false ->
  allsolid tb = false -> startsolid tb = false ->
  fltb (fraction ta) (fraction tb) = true ->
  allsolid (clip_trace clip) = false ->
  fltb (fraction ta) (fraction (clip_trace clip)) = true ->
  after l1
  = Build_trace_t false (startsolid (clip_trace clip)) (fraction ta)
                  (endpos ta) (plane_normal ta) (surfaceFlags ta)
                  (trace_contents ta) (number (s (SV_GentityMapperNum w a)))
  /\ fraction (after l1) = fraction ta
  /\ entityNum (after l1) = number (s (SV_GentityMapperNum w a))
  /\ after l2 = after l1
  /\ (passOwnerNum = clip_passOwnerNum K O w clip ->
      thisOwnerShared = clip_thisOwnerShared K O w clip ->
      oldTrace = zero_trace ->
      (clip_touchlist K w clip = l1 \/ clip_touchlist K w clip = l2) ->
      clip_trace (fst (SV_ClipMoveToEntities K O w clip)) = after l1).
Proof.
  intros ta tb after Hg H1 H2 Aa Sa Ab Sb Hab Hw Ha.
  assert (Sva : survives K w passOwnerNum thisOwnerShared clip a = true).
  { assert (Hin : In a (List.filter
                          (survives K w passOwnerNum thisOwnerShared clip) l1))
      by (rewrite H1; now left).
    now apply filter_In in Hin. }
  assert (Svb : survives K w passOwnerNum thisOwnerShared clip b = true).
  { assert (Hin : In b (List.filter
                          (survives K w passOwnerNum thisOwnerShared clip) l1))
      by (rewrite H1; right; now left).
    now apply filter_In in Hin. }
  destruct (agg_loop_two K O w passOwnerNum thisOwnerShared clip
                         (clip_trace clip) a b Sva Svb Hw Aa Sa Ab Sb Hab Ha)
    as [Eab Eba].
  assert (Eafter : forall l, after l
                             = agg_loop K O w passOwnerNum thisOwnerShared clip
                                 (List.filter
                                    (survives K w passOwnerNum thisOwnerShared
                                              clip) l)
                                 (clip_trace clip)).
  { intros l. unfold after.
    rewrite <- (set_clip_trace_same clip) at 1.
    rewrite (clip_loop_agg K O) by exact Hg.
    cbn [fst clip_trace set_clip_trace]. apply agg_loop_survivors. }
  assert (E12 : after l2 = after l1) by now rewrite !Eafter, H1, H2, Eab, Eba.
  split; [now rewrite Eafter, H1, Eab|].
  split; [now rewrite Eafter, H1, Eab|].
  split; [now rewrite Eafter, H1, Eab|].
  split; [exact E12|].
  intros -> -> -> Hl. rewrite SV_ClipMoveToEntities_loop.
  destruct Hl as [-> | ->]; [reflexivity | exact E12].
Qed.

Lemma C6_nearest_of_two_witness :
  match demo_world None [(1, (281 # 8)%Q, 5%Q); (2, (601 # 8)%Q, 5%Q)] with
  | Some w =>
    let after := fun l =>
      clip_trace (fst (fst (clip_loop jka_constants (demo_oracles None) w
                                      (-1) true l
                                      (demo_clip 1023 1 0, zero_trace)))) in
    let res := clip_trace (fst (SV_ClipMoveToEntities
                                  jka_constants (demo_oracles None) w
                                  (demo_clip 1023 1 0))) in
    Qeq_bool (fraction (after [1; 2])) (3 # 10)%Q = true
    /\ entityNum (after [1; 2]) = 1
    /\ after [2; 1] = after [1; 2]
    /\ res = after [1; 2]
  | None => False
  end.
Proof.
  destruct (demo_world None [(1, (281 # 8)%Q, 5%Q); (2, (601 # 8)%Q, 5%Q)])
    as [w|] eqn:Hw; [|vm_compute in Hw; discriminate].
  cbv zeta.
  destruct (@C6_nearest_of_two Q Q_ops Q_laws jka_constants (demo_oracles None)
              w (-1) true (demo_clip 1023 1 0) zero_trace [1; 2] [2; 1] 1 2)
    as (_ & Ef & En & Eo & Esv); [by_evaluation Hw .. |].
  rewrite Ef, En. split; [by_evaluation Hw|]. split; [by_evaluation Hw|].
  split; [exact Eo|].
  apply Esv; [by_evaluation Hw | by_evaluation Hw | reflexivity |].
  right. by_evaluation Hw.
Defined.

(** The claim C6 without the condition on the world: a wall met at
    fraction 2/10 before two candidates met at 3/10 and 7/10. Both
    candidates are clipped against, neither trace is solid, and the
    result has the fraction and the entity number of the world. *)
Lemma C6_world_hit_first :
  match demo_world (Some ((161 # 8)%Q, 22%Q))
                   [(1, (281 # 8)%Q, 5%Q); (2, (601 # 8)%Q, 5%Q)] with
  | Some w =>
    let O := demo_oracles (Some ((161 # 8)%Q, 22%Q)) in
    let res := SV_Trace jka_constants O w (Vec3 0%Q 0%Q 0%Q) None None
                        (Vec3 100%Q 0%Q 0%Q) 1023 1 0 0 0 in
    let ta := entity_trace jka_constants O w (demo_clip 1023 1 0) 1 in
    let tb := entity_trace jka_constants O w (demo_clip 1023 1 0) 2 in
    snd res = [EvWorldClip;
               EvAreaEntities (Vec3 (-1)%Q (-1)%Q (-1)%Q)
                              (Vec3 101%Q 1%Q 1%Q);
               EvExamine 2; EvEntityClip 2; EvExamine 1; EvEntityClip 1]
    /\ Qeq_bool (fraction ta) (3 # 10)%Q = true
    /\ Qeq_bool (fraction tb) (7 # 10)%Q = true
    /\ allsolid ta = false /\ startsolid ta = false
    /\ allsolid tb = false /\ startsolid tb = false
    /\ ~ (Qeq_bool (fraction (fst res)) (fraction ta) = true
          /\ entityNum (fst res) = 1)
    /\ Qeq_bool (fraction (fst res)) (2 # 10)%Q = true
    /\ entityNum (fst res) = 1022
  | None => False
  end.
Proof.
  destruct (demo_world (Some ((161 # 8)%Q, 22%Q))
                       [(1, (281 # 8)%Q, 5%Q); (2, (601 # 8)%Q, 5%Q)])
    as [w|] eqn:Hw; [|vm_compute in Hw; discriminate].
  vm_compute in Hw. injection Hw as <-.
  vm_compute. repeat split; try reflexivity.
  intros [H _]. discriminate.
Qed.

Section Allsolid.
Context {F : Type} {ops : FloatOps F} (K : Constants) (O : Oracles F).

(** A candidate whose exact trace is [allsolid], without the Ghoul2
    flag: [clip->trace] becomes [allsolid] and the loop examines nothing
    more; the number of the candidate is recorded when its fraction is
    below the fraction kept so far. *)
Lemma clip_loop_allsolid (w : world F) (passOwnerNum : Z)
      (thisOwnerShared : bool) (clip : moveclip_t) (oldTrace : trace_t F)
      (num : Z) (rest : list Z) :
  let touch := SV_GentityMapperNum w num in
  let trace := entity_trace K O w clip num in
  let st := fst (clip_entity K O w passOwnerNum thisOwnerShared num
                             (clip, oldTrace)) in
  flag_set (traceFlags clip) (G2TRFLAG_DOGHOULTRACE K) = false ->
  clip_filter K clip passOwnerNum thisOwnerShared num touch = None ->
  allsolid trace = true ->
  allsolid (clip_trace (fst st)) = true
  /\ clip_loop K O w passOwnerNum thisOwnerShared rest st = (st, [])
  /\ (fltb (fraction trace) (fraction (clip_trace clip)) = true ->
      entityNum (clip_trace (fst st)) = number (s touch)
      /\ fraction (clip_trace (fst st)) = fraction trace)
  /\ (fltb (fraction trace) (fraction (clip_trace clip)) = false ->
      entityNum (clip_trace (fst st)) = entityNum (clip_trace clip)
      /\ fraction (clip_trace (fst st)) = fraction (clip_trace clip)).
Proof.
  intros touch trace st Hg Hf Ha. subst st.
  rewrite (clip_entity_clipped K O) by assumption.
  fold touch. fold trace. cbn [fst clip_trace set_clip_trace].
  assert (Hall : allsolid (fst (clip_aggregate (clip_trace clip) trace
                                               (number (s touch)))) = true).
  { unfold clip_aggregate. rewrite Ha. cbn [fraction set_allsolid set_entityNum].
    destruct (fltb (fraction trace) (fraction (clip_trace clip))); cbn;
      [exact Ha | reflexivity]. }
  split; [exact Hall|]. split.
  - destruct rest as [|n rest]; cbn [clip_loop fst clip_trace set_clip_trace];
      [reflexivity|]. now rewrite Hall.
  - split; intros Hlt.
    + rewrite clip_aggregate_better by exact Hlt. cbn. auto.
    + unfold clip_aggregate. rewrite Ha.
      cbn [fraction set_allsolid set_entityNum]. rewrite Hlt. cbn. auto.
Qed.
End Allsolid.


(** C2 (does not hold of the code). The sweep of the example meets
    entity 1 at fraction 0 without being inside it, then entity 2 all
    along; entity 3 is a third candidate of the list. Entities 1 and 2
    are clipped against, in this order; the trace of entity 2 is
    [allsolid]. The result is [allsolid] with fraction 0 and entity 3 is
    not examined, but the entity number recorded is that of entity 1,
    not that of the candidate whose trace was [allsolid]. *)
Theorem C2_allsolid_entity_not_recorded :
  match demo_world None
          [(3, 90%Q, 5%Q); (2, 50%Q, 60%Q); (1, (81 # 16)%Q, 5%Q)] with
  | Some w =>
    let O := demo_oracles None in
    let res := SV_Trace jka_constants O w (Vec3 0%Q 0%Q 0%Q) None None
                        (Vec3 100%Q 0%Q 0%Q) 1023 1 0 0 0 in
    let t1 := entity_trace jka_constants O w (demo_clip 1023 1 0) 1 in
    let t2 := entity_trace jka_constants O w (demo_clip 1023 1 0) 2 in
    SV_AreaEntities w (Vec3 (-1)%Q (-1)%Q (-1)%Q) (Vec3 101%Q 1%Q 1%Q) 1024
    = (3, [1; 2; 3])
    /\ snd res = [EvWorldClip;
                  EvAreaEntities (Vec3 (-1)%Q (-1)%Q (-1)%Q)
                                 (Vec3 101%Q 1%Q 1%Q);
                  EvExamine 1; EvEntityClip 1; EvExamine 2; EvEntityClip 2]
    /\ allsolid t1 = false /\ startsolid t1 = false
    /\ Qeq_bool (fraction t1) 0%Q = true
    /\ allsolid t2 = true /\ Qeq_bool (fraction t2) 0%Q = true
    /\ number (s (SV_GentityMapperNum w 2)) = 2
    /\ allsolid (fst res) = true
    /\ Qeq_bool (fraction (fst res)) 0%Q = true
    /\ entityNum (fst res) = 1
  | None => False
  end.
Proof.
  destruct (demo_world None
              [(3, 90%Q, 5%Q); (2, 50%Q, 60%Q); (1, (81 # 16)%Q, 5%Q)])
    as [w|] eqn:Hw; [|vm_compute in Hw; discriminate].
  vm_compute in Hw. injection Hw as <-.
  vm_compute. repeat split.
Qed.

(** ** Area queries *)

Section AreaQuery.
Context {F : Type} {ops : FloatOps F}.
Implicit Types (w : world F) (ap : areaParms_t (F := F)) (n : worldSector_t F).

Lemma ap_extend_nil ap : ap_extend ap [] = ap.
Proof.
  destruct ap; unfold ap_extend; simpl.
  rewrite app_nil_r, Z.add_0_r. reflexivity.
Qed.

Lemma ap_extend_app ap (l1 l2 : list Z) :
  ap_extend (ap_extend ap l1) l2 = ap_extend ap (l1 ++ l2).
Proof.
  unfold ap_extend; simpl. rewrite <- app_assoc, length_app, Nat2Z.inj_add.
  f_equal. lia.
Qed.

(** The chain loop when the list has room for all it meets. *)
Lemma area_chain_room w (chain : list Z) :
  forall ap,
    ap_count ap
    + Z.of_nat (length (List.filter (area_hit w (ap_mins ap) (ap_maxs ap)) chain))
    <= ap_maxcount ap ->
    area_chain w chain ap
    = (ap_extend ap (List.filter (area_hit w (ap_mins ap) (ap_maxs ap)) chain),
       false).
Proof.
  induction chain as [|e rest IH]; intros ap Hroom.
  - simpl. now rewrite ap_extend_nil.
  - cbn [area_chain List.filter]. cbn [List.filter] in Hroom.
    destruct (area_hit w (ap_mins ap) (ap_maxs ap) e) eqn:Eh;
      unfold area_hit in Eh.
    + apply negb_true_iff in Eh. rewrite Eh. cbn [length] in Hroom.
      destruct (Z.eqb_spec (ap_count ap) (ap_maxcount ap)) as [E|_];
        [exfalso; lia|].
      rewrite IH; cbn [ap_mins ap_maxs ap_count ap_maxcount]; [|lia].
      f_equal. unfold ap_extend; cbn. rewrite <- app_assoc. cbn.
      f_equal. lia.
    + apply negb_false_iff in Eh. rewrite Eh. now apply IH.
Qed.

(** The chain loop never takes the count above [maxcount], and leaves
    the query as it is. *)
Lemma area_chain_bound w (chain : list Z) :
  forall ap,
    let ap' := fst (area_chain w chain ap) in
    ap_mins ap' = ap_mins ap /\ ap_maxs ap' = ap_maxs ap
    /\ ap_maxcount ap' = ap_maxcount ap
    /\ (ap_count ap <= ap_maxcount ap -> ap_count ap' <= ap_maxcount ap).
Proof.
  induction chain as [|e rest IH]; intros ap; cbn [area_chain].
  - cbn. repeat split; lia.
  - destruct (area_disjoint _ _ _); [apply IH|].
    destruct (Z.eqb_spec (ap_count ap) (ap_maxcount ap)) as [E|NE].
    + cbn. repeat split; lia.
    + specialize (IH {| ap_mins := ap_mins ap; ap_maxs := ap_maxs ap;
                        ap_list := ap_list ap ++ [e];
                        ap_count := ap_count ap + 1;
                        ap_maxcount := ap_maxcount ap |}).
      cbn [ap_mins ap_maxs ap_count ap_maxcount] in IH.
      destruct IH as (H1 & H2 & H3 & H4).
      repeat split; try assumption. intros Hle. apply H4. lia.
Qed.

(** [SV_AreaEntities_r] when the list has room for all it meets. *)
Lemma SV_AreaEntities_r_room w n :
  forall ap,
    ap_count ap + Z.of_nat (length (area_walk w (ap_mins ap) (ap_maxs ap) n))
    <= ap_maxcount ap ->
    SV_AreaEntities_r w n ap
    = ap_extend ap (area_walk w (ap_mins ap) (ap_maxs ap) n).
Proof.
  induction n as [k d l | k axis d c0 IH0 c1 IH1 l]; intros ap Hroom.
  - cbn [SV_AreaEntities_r area_walk sector_entities] in *.
    rewrite app_nil_r in *. now rewrite area_chain_room.
  - cbn [SV_AreaEntities_r area_walk sector_entities] in *.
    destruct (axis =? -1).
    { rewrite app_nil_r in *. now rewrite area_chain_room. }
    destruct (fgtb (vget (ap_maxs ap) axis) d) eqn:E0;
      destruct (fltb (vget (ap_mins ap) axis) d) eqn:E1;
      rewrite ?app_nil_r, ?length_app, ?Nat2Z.inj_add in Hroom;
      cbn [length] in Hroom;
      rewrite area_chain_room by lia;
      cbn [ap_mins ap_maxs ap_extend]; rewrite E0.
    + rewrite IH0
        by (cbn [ap_extend ap_count ap_maxcount ap_mins ap_maxs]; lia).
      cbn [ap_mins ap_maxs ap_extend]. rewrite E1.
      rewrite IH1
        by (cbn [ap_extend ap_count ap_maxcount ap_mins ap_maxs];
            rewrite ?length_app, ?Nat2Z.inj_add; lia).
      cbn [ap_mins ap_maxs ap_extend].
      unfold ap_extend; cbn. rewrite <- !app_assoc, !length_app, !Nat2Z.inj_add.
      f_equal. lia.
    + rewrite IH0
        by (cbn [ap_extend ap_count ap_maxcount ap_mins ap_maxs]; lia).
      cbn [ap_mins ap_maxs ap_extend]. rewrite E1.
      unfold ap_extend; cbn.
      rewrite !app_nil_r, <- !app_assoc, !length_app, !Nat2Z.inj_add.
      f_equal. lia.
    + cbn [ap_mins ap_maxs ap_extend]. rewrite E1.
      rewrite IH1
        by (cbn [ap_extend ap_count ap_maxcount ap_mins ap_maxs]; lia).
      cbn [ap_mins ap_maxs ap_extend].
      unfold ap_extend; cbn. rewrite <- !app_assoc, !length_app, !Nat2Z.inj_add.
      f_equal. lia.
    + cbn [ap_mins ap_maxs ap_extend]. rewrite E1.
      cbn. rewrite !app_nil_r. reflexivity.
Qed.

(** [SV_AreaEntities_r] never takes the count above [maxcount]. *)
Lemma SV_AreaEntities_r_bound w n :
  forall ap,
    let ap' := SV_AreaEntities_r w n ap in
    ap_mins ap' = ap_mins ap /\ ap_maxs ap' = ap_maxs ap
    /\ ap_maxcount ap' = ap_maxcount ap
    /\ (ap_count ap <= ap_maxcount ap -> ap_count ap' <= ap_maxcount ap).
Proof.
  induction n as [k d l | k axis d c0 IH0 c1 IH1 l]; intros ap;
    cbn [SV_AreaEntities_r sector_entities].
  - pose proof (area_chain_bound w l ap) as H.
    destruct (area_chain w l ap) as [ap1 [|]]; exact H.
  - pose proof (area_chain_bound w l ap) as H.
    destruct (area_chain w l ap) as [ap1 ret]. cbn [fst] in H.
    destruct H as (H1 & H2 & H3 & H4).
    destruct ret; [repeat split; assumption|].
    destruct (axis =? -1); [repeat split; assumption|].
    set (ap2 := if fgtb (vget (ap_maxs ap1) axis) d
                then SV_AreaEntities_r w c0 ap1 else ap1).
    assert (B2 : ap_mins ap2 = ap_mins ap /\ ap_maxs ap2 = ap_maxs ap
                 /\ ap_maxcount ap2 = ap_maxcount ap
                 /\ (ap_count ap <= ap_maxcount ap ->
                     ap_count ap2 <= ap_maxcount ap)).
    { subst ap2. destruct (fgtb _ _); [|repeat split; assumption].
      destruct (IH0 ap1) as (G1 & G2 & G3 & G4).
      repeat split; try congruence. intros Hle. rewrite <- H3. apply G4.
      rewrite H3. now apply H4. }
    destruct B2 as (G1 & G2 & G3 & G4).
    destruct (fltb _ _); [|repeat split; assumption].
    destruct (IH1 ap2) as (J1 & J2 & J3 & J4).
    repeat split; try congruence. intros Hle. rewrite <- G3. apply J4.
    rewrite G3. now apply G4.
Qed.
End AreaQuery.

(** ** The sector tree as a store of chains *)

Section SectorTree.
Context {F : Type} {ops : FloatOps F}.
Implicit Types (n t : worldSector_t F) (k e : Z) (l : list Z).

Lemma NoDup_app_disjoint (l1 l2 : list Z) (a : Z) :
  NoDup (l1 ++ l2) -> In a l1 -> In a l2 -> False.
Proof.
  induction l1 as [|x l1 IH]; cbn; [tauto|].
  intros Hnd [-> | H1] H2; apply NoDup_cons_iff in Hnd as [Hx Hnd].
  - apply Hx, in_or_app. now right.
  - now apply IH.
Qed.

Lemma sector_lookup_slot k t l :
  sector_lookup k t = Some l -> In k (sector_slots t).
Proof.
  induction t as [k0 d l0 | k0 a d c0 IH0 c1 IH1 l0]; cbn.
  - destruct (Z.eqb_spec k0 k); [now left | discriminate].
  - destruct (Z.eqb_spec k0 k); [now left|].
    intros H. right. apply in_or_app.
    destruct (sector_lookup k c0); [left; now apply IH0 | right; now apply IH1].
Qed.

Lemma sector_lookup_present k t :
  In k (sector_slots t) -> exists l, sector_lookup k t = Some l.
Proof.
  induction t as [k0 d l0 | k0 a d c0 IH0 c1 IH1 l0]; cbn.
  - intros [-> | []]. rewrite Z.eqb_refl. eauto.
  - intros [-> | H]; [rewrite Z.eqb_refl; eauto|].
    destruct (k0 =? k); [eauto|].
    apply in_app_or in H as [H | H].
    + destruct (IH0 H) as [l ->]. eauto.
    + destruct (sector_lookup k c0); [eauto | now apply IH1].
Qed.

Lemma sector_lookup_absent k t :
  ~ In k (sector_slots t) -> sector_lookup k t = None.
Proof.
  intros H. destruct (sector_lookup k t) eqn:E; [|reflexivity].
  now apply sector_lookup_slot in E.
Qed.

Lemma sector_store_absent k l t :
  ~ In k (sector_slots t) -> sector_store k l t = t.
Proof.
  induction t as [k0 d l0 | k0 a d c0 IH0 c1 IH1 l0]; cbn; intros H.
  - destruct (Z.eqb_spec k0 k); [exfalso; auto | reflexivity].
  - destruct (Z.eqb_spec k0 k); [exfalso; auto|].
    rewrite IH0, IH1; [reflexivity | |]; intros Hin; apply H; right;
      apply in_or_app; auto.
Qed.

Lemma sector_slots_store k l t :
  sector_slots (sector_store k l t) = sector_slots t.
Proof.
  induction t as [k0 d l0 | k0 a d c0 IH0 c1 IH1 l0]; cbn.
  - now destruct (k0 =? k).
  - destruct (k0 =? k); cbn; [reflexivity | now rewrite IH0, IH1].
Qed.

Lemma sector_axes_store k l t :
  sector_axes t -> sector_axes (sector_store k l t).
Proof.
  induction t as [k0 d l0 | k0 a d c0 IH0 c1 IH1 l0]; cbn.
  - now destruct (k0 =? k).
  - intros (Ha & H0 & H1). destruct (k0 =? k); cbn; auto.
Qed.

Lemma sector_lookup_store_same k l t :
  In k (sector_slots t) -> sector_lookup k (sector_store k l t) = Some l.
Proof.
  induction t as [k0 d l0 | k0 a d c0 IH0 c1 IH1 l0]; cbn.
  - intros [-> | []]. rewrite Z.eqb_refl. cbn. now rewrite Z.eqb_refl.
  - intros H. destruct (Z.eqb_spec k0 k) as [E | NE].
    + cbn. subst. now rewrite Z.eqb_refl.
    + destruct H as [E | H]; [contradiction|]. cbn.
      destruct (Z.eqb_spec k0 k) as [E|_]; [contradiction|].
      destruct (in_dec Z.eq_dec k (sector_slots c0)) as [H0 | H0].
      * now rewrite IH0.
      * rewrite (sector_store_absent k l c0 H0).
        rewrite (sector_lookup_absent k c0 H0).
        apply in_app_or in H as [H | H]; [contradiction | now apply IH1].
Qed.

Lemma sector_lookup_store_other k k' l t :
  k <> k' -> sector_lookup k' (sector_store k l t) = sector_lookup k' t.
Proof.
  intros Hne.
  induction t as [k0 d l0 | k0 a d c0 IH0 c1 IH1 l0]; cbn.
  - destruct (Z.eqb_spec k0 k); cbn; [|reflexivity].
    destruct (Z.eqb_spec k0 k'); [congruence | reflexivity].
  - destruct (Z.eqb_spec k0 k); cbn.
    + destruct (Z.eqb_spec k0 k'); [congruence | reflexivity].
    + now rewrite IH0, IH1.
Qed.

(** The chain of a sector is a segment of the members of the tree, and
    storing another chain replaces that segment. *)
Lemma sector_members_store k l t :
  NoDup (sector_slots t) -> sector_lookup k t = Some l ->
  exists pre post,
    sector_members t = pre ++ l ++ post
    /\ forall l', sector_members (sector_store k l' t) = pre ++ l' ++ post.
Proof.
  induction t as [k0 d l0 | k0 a d c0 IH0 c1 IH1 l0]; cbn; intros Hnd Hl.
  - destruct (Z.eqb_spec k0 k); [|discriminate]. injection Hl as ->.
    exists [], []. split; [now rewrite app_nil_r|].
    intros l'. cbn. now rewrite app_nil_r.
  - apply NoDup_cons_iff in Hnd as [Hk0 Hnd].
    pose proof (NoDup_app_remove_l _ _ Hnd) as Hnd1.
    pose proof (NoDup_app_remove_r _ _ Hnd) as Hnd0.
    destruct (Z.eqb_spec k0 k).
    + injection Hl as ->. exists [], (sector_members c0 ++ sector_members c1).
      split; [reflexivity|]. intros l'. reflexivity.
    + destruct (sector_lookup k c0) as [l1|] eqn:E0.
      * injection Hl as ->.
        destruct (IH0 Hnd0 eq_refl) as (pre & post & Em & Es).
        assert (H1 : ~ In k (sector_slots c1)).
        { intros H1. apply sector_lookup_slot in E0.
          exact (NoDup_app_disjoint _ _ k Hnd E0 H1). }
        exists (l0 ++ pre), (post ++ sector_members c1).
        split; [rewrite Em; now rewrite <- !app_assoc|].
        intros l'. cbn. rewrite Es, (sector_store_absent k l' c1 H1).
        now rewrite <- !app_assoc.
      * destruct (IH1 Hnd1 Hl) as (pre & post & Em & Es).
        assert (H0 : ~ In k (sector_slots c0)).
        { intros H0. apply sector_lookup_present in H0 as [x Hx]. congruence. }
        exists (l0 ++ sector_members c0 ++ pre), post.
        split; [rewrite Em; now rewrite <- !app_assoc|].
        intros l'. cbn. rewrite Es, (sector_store_absent k l' c0 H0).
        now rewrite <- !app_assoc.
Qed.

Lemma sector_lookup_members k l e t :
  sector_lookup k t = Some l -> In e l -> In e (sector_members t).
Proof.
  induction t as [k0 d l0 | k0 a d c0 IH0 c1 IH1 l0]; cbn.
  - destruct (k0 =? k); [|discriminate]. now intros [= ->].
  - destruct (k0 =? k).
    + intros [= ->] H. apply in_or_app. now left.
    + intros Hl H. apply in_or_app. right. apply in_or_app.
      destruct (sector_lookup k c0); [left | right]; auto.
Qed.

Lemma sector_members_lookup e t :
  NoDup (sector_slots t) -> In e (sector_members t) ->
  exists k l, sector_lookup k t = Some l /\ In e l.
Proof.
  induction t as [k0 d l0 | k0 a d c0 IH0 c1 IH1 l0]; cbn; intros Hnd H.
  - exists k0, l0. now rewrite Z.eqb_refl.
  - apply NoDup_cons_iff in Hnd as [Hk0 Hnd].
    pose proof (NoDup_app_remove_l _ _ Hnd) as Hnd1.
    pose proof (NoDup_app_remove_r _ _ Hnd) as Hnd0.
    apply in_app_or in H as [H | H].
    { exists k0, l0. now rewrite Z.eqb_refl. }
    apply in_app_or in H as [H | H].
    + destruct (IH0 Hnd0 H) as (k & l & Hl & Hin). exists k, l.
      destruct (Z.eqb_spec k0 k) as [E|_].
      * exfalso. apply Hk0. apply in_or_app. left. subst.
        now apply sector_lookup_slot in Hl.
      * now rewrite Hl.
    + destruct (IH1 Hnd1 H) as (k & l & Hl & Hin). exists k, l.
      destruct (Z.eqb_spec k0 k) as [E|_].
      * exfalso. apply Hk0. apply in_or_app. right. subst.
        now apply sector_lookup_slot in Hl.
      * assert (H0 : ~ In k (sector_slots c0)).
        { intros H0. apply sector_lookup_slot in Hl.
          exact (NoDup_app_disjoint _ _ k Hnd H0 Hl). }
        now rewrite (sector_lookup_absent k c0 H0).
Qed.

(** The sector found by the loop of [SV_LinkEntity] is in the tree. *)
Lemma link_find_sector_slot t (lo hi : vec3_t F) :
  In (link_find_sector t lo hi) (sector_slots t).
Proof.
  induction t as [k0 d l0 | k0 a d c0 IH0 c1 IH1 l0]; cbn; [now left|].
  destruct (a =? -1); [now left|].
  destruct (fgtb _ _); [right; apply in_or_app; now left|].
  destruct (fltb _ _); [right; apply in_or_app; now right | now left].
Qed.
End SectorTree.

Section Placement.
Context {F : Type} {ops : FloatOps F}.
Implicit Types (n t : worldSector_t F) (k e : Z) (l : list Z)
         (box : Z -> vec3_t F * vec3_t F) (cs : list (sector_side (F := F))).

Lemma sector_placed_members box cs t e c :
  sector_placed box cs t -> In c cs -> In e (sector_members t) ->
  on_side (fst (box e)) (snd (box e)) c = true.
Proof.
  revert cs. induction t as [k0 d l0 | k0 a d c0 IH0 c1 IH1 l0];
    cbn; intros cs Hp Hc He.
  - now apply Hp.
  - destruct Hp as (Hl & H0 & H1).
    apply in_app_or in He as [He | He]; [now apply Hl|].
    apply in_app_or in He as [He | He].
    + apply (IH0 _ H0); [now right | exact He].
    + apply (IH1 _ H1); [now right | exact He].
Qed.

Lemma sector_placed_ext box box' cs t :
  (forall x, In x (sector_members t) -> box x = box' x) ->
  sector_placed box cs t -> sector_placed box' cs t.
Proof.
  revert cs. induction t as [k0 d l0 | k0 a d c0 IH0 c1 IH1 l0];
    cbn; intros cs Hb Hp.
  - intros e c He Hc. rewrite <- Hb by exact He. now apply Hp.
  - destruct Hp as (Hl & H0 & H1). split; [|split].
    + intros e c He Hc. rewrite <- Hb by (apply in_or_app; now left).
      now apply Hl.
    + apply IH0; [|exact H0]. intros x Hx. apply Hb.
      apply in_or_app; right; apply in_or_app; now left.
    + apply IH1; [|exact H1]. intros x Hx. apply Hb.
      apply in_or_app; right; apply in_or_app; now right.
Qed.

(** A shorter chain keeps the placement. *)
Lemma sector_placed_store_incl box cs t k l l' :
  NoDup (sector_slots t) -> sector_lookup k t = Some l ->
  (forall x, In x l' -> In x l) ->
  sector_placed box cs t -> sector_placed box cs (sector_store k l' t).
Proof.
  revert cs. induction t as [k0 d l0 | k0 a d c0 IH0 c1 IH1 l0];
    cbn; intros cs Hnd Hl Hi Hp.
  - destruct (Z.eqb_spec k0 k) as [Ek|Ek]; [|exact Hp]. injection Hl as ->.
    cbn. intros e c He Hc. apply Hp; auto.
  - apply NoDup_cons_iff in Hnd as [Hk0 Hnd].
    pose proof (NoDup_app_remove_l _ _ Hnd) as Hnd1.
    pose proof (NoDup_app_remove_r _ _ Hnd) as Hnd0.
    destruct Hp as (Hp & H0 & H1).
    destruct (Z.eqb_spec k0 k) as [Ek|Ek].
    + injection Hl as ->. cbn. split; [|split]; auto.
    + cbn. split; [exact Hp|].
      destruct (sector_lookup k c0) as [l1|] eqn:E0.
      * injection Hl as ->.
        assert (Hn1 : ~ In k (sector_slots c1)).
        { intros Hn1. apply sector_lookup_slot in E0.
          exact (NoDup_app_disjoint _ _ k Hnd E0 Hn1). }
        rewrite (sector_store_absent k l' c1 Hn1). split; [|exact H1].
        now apply IH0.
      * assert (Hn0 : ~ In k (sector_slots c0)).
        { intros Hn0. apply sector_lookup_present in Hn0 as [x Hx]. congruence. }
        rewrite (sector_store_absent k l' c0 Hn0). split; [exact H0|].
        now apply IH1.
Qed.

(** The entity pushed on the chain of the sector found by
    [SV_LinkEntity] is placed. *)
Lemma sector_placed_link box cs t e (lo hi : vec3_t F) :
  NoDup (sector_slots t) ->
  box e = (lo, hi) ->
  (forall c, In c cs -> on_side lo hi c = true) ->
  sector_placed box cs t ->
  forall l, sector_lookup (link_find_sector t lo hi) t = Some l ->
            sector_placed box cs
                          (sector_store (link_find_sector t lo hi) (e :: l) t).
Proof.
  intros Hnd Hbox. revert cs Hnd.
  induction t as [k0 d l0 | k0 a d c0 IH0 c1 IH1 l0];
    cbn [link_find_sector sector_placed sector_slots];
    intros cs Hnd Hcs Hp l Hl.
  - cbn in *. rewrite Z.eqb_refl in *. injection Hl as <-. cbn.
    intros x c [<- | Hx] Hc; [rewrite Hbox; now apply Hcs | now apply Hp].
  - apply NoDup_cons_iff in Hnd as [Hk0 Hnd].
    pose proof (NoDup_app_remove_l _ _ Hnd) as Hnd1.
    pose proof (NoDup_app_remove_r _ _ Hnd) as Hnd0.
    destruct Hp as (Hp & H0 & H1).
    assert (Here : forall l,
               sector_lookup k0 (SectorNode k0 a d c0 c1 l0) = Some l ->
               sector_placed box cs
                 (sector_store k0 (e :: l) (SectorNode k0 a d c0 c1 l0))).
    { intros l1 Hl1. cbn in *. rewrite Z.eqb_refl in *. injection Hl1 as <-.
      cbn. split; [|split; assumption].
      intros x c [<- | Hx] Hc; [rewrite Hbox; now apply Hcs | now apply Hp]. }
    destruct (a =? -1); [now apply Here|].
    destruct (fgtb (vget lo a) d) eqn:Eg.
    + pose proof (link_find_sector_slot c0 lo hi) as Hin.
      set (k := link_find_sector c0 lo hi) in *.
      assert (Hne : k0 <> k).
      { intros ->. apply Hk0, in_or_app. now left. }
      assert (Hn1 : ~ In k (sector_slots c1)).
      { intros Hn1. exact (NoDup_app_disjoint _ _ k Hnd Hin Hn1). }
      cbn in Hl. cbn [sector_store].
      destruct (Z.eqb_spec k0 k) as [E|_]; [contradiction|].
      destruct (sector_lookup_present k c0 Hin) as [l1 E1].
      rewrite E1 in Hl. injection Hl as <-.
      rewrite (sector_store_absent k _ c1 Hn1).
      cbn. split; [exact Hp|]. split; [|exact H1].
      apply IH0; auto.
      intros c [<- | Hc]; [exact Eg | now apply Hcs].
    + destruct (fltb (vget hi a) d) eqn:El; [|now apply Here].
      pose proof (link_find_sector_slot c1 lo hi) as Hin.
      set (k := link_find_sector c1 lo hi) in *.
      assert (Hne : k0 <> k).
      { intros ->. apply Hk0, in_or_app. now right. }
      assert (Hn0 : ~ In k (sector_slots c0)).
      { intros Hn0. exact (NoDup_app_disjoint _ _ k Hnd Hn0 Hin). }
      cbn in Hl. cbn [sector_store].
      destruct (Z.eqb_spec k0 k) as [E|_]; [contradiction|].
      rewrite (sector_lookup_absent k c0 Hn0) in Hl.
      rewrite (sector_store_absent k _ c0 Hn0).
      cbn. split; [exact Hp|]. split; [exact H0|].
      apply IH1; auto.
      intros c [<- | Hc]; [exact El | now apply Hcs].
Qed.

(** The chain of a sector after [SV_UnlinkEntity]. *)
Lemma unlink_scan_spec e (scan : Z) (tl : list Z) :
  match unlink_scan e (scan :: tl) with
  | Some l' => exists l1 l2, tl = l1 ++ e :: l2 /\ l' = scan :: l1 ++ l2
                             /\ ~ In e l1
  | None => ~ In e tl
  end.
Proof.
  revert scan. induction tl as [|next rest IH]; intros scan; cbn; [tauto|].
  destruct (Z.eqb_spec next e) as [-> | Hne].
  - exists [], rest. cbn. auto.
  - specialize (IH next). cbn in IH.
    destruct (match rest with
              | [] => None
              | next0 :: rest0 =>
                if next0 =? e then Some (next :: rest0)
                else option_map (cons next) (unlink_scan e rest)
              end) as [l'|].
    + destruct IH as (l1 & l2 & -> & -> & Hn). cbn.
      exists (next :: l1), l2. cbn. repeat split. intros [E | H]; auto.
    + cbn. intros [E | H]; auto.
Qed.

Lemma unlink_chain_spec e l :
  match unlink_chain e l with
  | Some l' => exists l1 l2, l = l1 ++ e :: l2 /\ l' = l1 ++ l2 /\ ~ In e l1
  | None => ~ In e l
  end.
Proof.
  destruct l as [|head tl]; cbn [unlink_chain]; [cbn; tauto|].
  destruct (Z.eqb_spec head e) as [-> | Hne].
  - exists [], tl. cbn. auto.
  - pose proof (unlink_scan_spec e head tl) as H.
    destruct (unlink_scan e (head :: tl)) as [l'|].
    + destruct H as (l1 & l2 & -> & -> & Hn).
      exists (head :: l1), l2. cbn. repeat split. intros [E | H']; auto.
    + cbn. intros [E | H']; auto.
Qed.
End Placement.

(** ** The registry is kept by linking and unlinking *)

Section Registry.
Context {F : Type} {ops : FloatOps F}.
Implicit Types (w : world F) (num e k : Z).

Lemma svEntity_put_gentity num (g : sharedEntityMapper_t F) w e :
  SV_SvEntityForGentityMapper (put_gentity num g w) e
  = SV_SvEntityForGentityMapper w e.
Proof. reflexivity. Qed.

Lemma entity_box_put_same num (g : sharedEntityMapper_t F) w :
  entity_box (put_gentity num g w) num = (absmin (r g), absmax (r g)).
Proof. unfold entity_box. now rewrite gentity_put_same. Qed.

Lemma entity_box_put_other num (g : sharedEntityMapper_t F) w e :
  num <> e -> entity_box (put_gentity num g w) e = entity_box w e.
Proof. intros H. unfold entity_box. now rewrite gentity_put_other. Qed.

(** An entity without sector is in no chain. *)
Lemma unlinked_not_member w num :
  world_inv w ->
  worldSector (SV_SvEntityForGentityMapper w num) = None ->
  ~ In num (sector_members (sv_worldSectors w)).
Proof.
  intros Hi Hn Hin.
  destruct (sector_members_lookup num _ (inv_slots w Hi) Hin)
    as (k & l & Hl & He).
  assert (H : worldSector (SV_SvEntityForGentityMapper w num) = Some k)
    by (apply (inv_link w Hi); eauto).
  congruence.
Qed.

(** Writing the game's fields of an entity, or any field of an entity
    without sector, keeps the registry. *)
Lemma world_inv_put_gentity w num (g : sharedEntityMapper_t F) :
  world_inv w ->
  (In num (sector_members (sv_worldSectors w)) ->
   (absmin (r g), absmax (r g)) = entity_box w num) ->
  world_inv (put_gentity num g w).
Proof.
  intros Hi Hb. destruct Hi as [H1 H2 H3 H4 H5].
  split; cbn [put_gentity sv_worldSectors]; try assumption.
  apply (sector_placed_ext (entity_box w)); [|exact H5].
  intros x Hx. destruct (Z.eq_dec num x) as [<- | Hne].
  - rewrite entity_box_put_same. symmetry. now apply Hb.
  - now rewrite entity_box_put_other.
Qed.

Lemma world_inv_Com_Printf w (msg : string) :
  world_inv w -> world_inv (Com_Printf msg w).
Proof. intros [H1 H2 H3 H4 H5]. split; assumption. Qed.

(** Writing the fields of a [svEntity_t] other than the sector. *)
Lemma world_inv_put_svEntity w num (sv : svEntity_t) :
  world_inv w ->
  worldSector sv = worldSector (SV_SvEntityForGentityMapper w num) ->
  world_inv (put_svEntity num sv w).
Proof.
  intros [H1 H2 H3 H4 H5] Hs. split; cbn [put_svEntity sv_worldSectors];
    try assumption.
  intros e k. destruct (Z.eq_dec num e) as [<- | Hne].
  - rewrite svEntity_put_same, Hs. apply H4.
  - rewrite svEntity_put_other by exact Hne. apply H4.
Qed.

(** Taking an entity out of the chain of its sector. *)
Lemma world_inv_unchain w num ws (l1 l2 : list Z) (sv : svEntity_t) :
  world_inv w ->
  worldSector (SV_SvEntityForGentityMapper w num) = Some ws ->
  sector_lookup ws (sv_worldSectors w) = Some (l1 ++ num :: l2) ->
  worldSector sv = None ->
  world_inv (put_sectors (sector_store ws (l1 ++ l2) (sv_worldSectors w))
                         (put_svEntity num sv w)).
Proof.
  intros [H1 H2 H3 H4 H5] Hws Hl Hsv.
  destruct (sector_members_store ws _ _ H1 Hl) as (pre & post & Em & Es).
  assert (Hnd : NoDup ((pre ++ l1) ++ num :: l2 ++ post)).
  { rewrite Em in H3. now rewrite <- !app_assoc in *. }
  apply NoDup_remove in Hnd as [Hnd Hnot].
  assert (Hslot : In ws (sector_slots (sv_worldSectors w)))
    by (eapply sector_lookup_slot; eauto).
  split; cbn [put_sectors put_svEntity sv_worldSectors].
  - now rewrite sector_slots_store.
  - now apply sector_axes_store.
  - rewrite Es. now rewrite <- !app_assoc in *.
  - intros e k. unfold SV_SvEntityForGentityMapper, put_sectors, put_svEntity.
    cbn [svEntities].
    destruct (Z.eq_dec num e) as [<- | Hne].
    + rewrite lookup_insert_eq. cbn. rewrite Hsv. split; [discriminate|].
      intros (l & Hk & He). exfalso.
      destruct (Z.eq_dec ws k) as [<- | Hk'].
      * rewrite sector_lookup_store_same in Hk by exact Hslot.
        injection Hk as <-. apply Hnot. rewrite <- !app_assoc.
        apply in_or_app. right. apply in_app_or in He as [He | He];
          apply in_or_app; [now left|]. right. apply in_or_app. now left.
      * rewrite sector_lookup_store_other in Hk by exact Hk'.
        assert (E : worldSector (SV_SvEntityForGentityMapper w num) = Some k)
          by (apply H4; eauto).
        congruence.
    + rewrite lookup_insert_ne by exact Hne.
      change (default zero_svEntity (svEntities w !! e))
        with (SV_SvEntityForGentityMapper w e).
      rewrite H4. destruct (Z.eq_dec ws k) as [<- | Hk'].
      * rewrite sector_lookup_store_same by exact Hslot. rewrite Hl.
        split; intros (l & [= <-] & He); eexists; (split; [reflexivity|]).
        -- apply in_app_or in He as [He | [He | He]];
             [apply in_or_app; now left | contradiction
              | apply in_or_app; now right].
        -- apply in_app_or in He as [He | He]; apply in_or_app;
             [now left | right; now right].
      * now rewrite sector_lookup_store_other by exact Hk'.
  - apply sector_placed_store_incl with (l := l1 ++ num :: l2); auto.
    intros x Hx. apply in_app_or in Hx as [Hx | Hx]; apply in_or_app;
      [now left | right; now right].
Qed.

(** [SV_UnlinkEntity] keeps the registry. *)
Lemma world_inv_unlink w num :
  world_inv w -> world_inv (SV_UnlinkEntity num w).
Proof.
  intros Hi. unfold SV_UnlinkEntity.
  set (g := set_linked false (SV_GentityMapperNum w num)).
  assert (Hg : world_inv (put_gentity num g w)).
  { apply world_inv_put_gentity; [exact Hi | reflexivity]. }
  destruct (worldSector (SV_SvEntityForGentityMapper w num)) as [ws|] eqn:Hws;
    [|exact Hg].
  cbn [put_svEntity put_gentity sv_worldSectors].
  destruct (proj1 (inv_link w Hi num ws) Hws) as (l & Hl & Hin).
  rewrite Hl. change (default [] (Some l)) with l.
  pose proof (unlink_chain_spec num l) as Hu.
  destruct (unlink_chain num l) as [l'|]; [|contradiction].
  destruct Hu as (l1 & l2 & -> & -> & Hn).
  apply (world_inv_unchain (put_gentity num g w) num ws l1 l2); auto.
Qed.

(** Pushing an entity without sector on the chain of the sector that
    [SV_LinkEntity] finds for its box. *)
Lemma world_inv_chain w num (sv : svEntity_t) :
  world_inv w ->
  worldSector (SV_SvEntityForGentityMapper w num) = None ->
  let lo := fst (entity_box w num) in
  let hi := snd (entity_box w num) in
  let node := link_find_sector (sv_worldSectors w) lo hi in
  worldSector sv = Some node ->
  world_inv
    (put_svEntity num sv
       (put_sectors
          (sector_store node
             (num :: default [] (sector_lookup node (sv_worldSectors w)))
             (sv_worldSectors w)) w)).
Proof.
  intros Hi Hnone lo hi node Hsv.
  pose proof (unlinked_not_member w num Hi Hnone) as Hnot.
  destruct Hi as [H1 H2 H3 H4 H5].
  assert (Hslot : In node (sector_slots (sv_worldSectors w)))
    by apply link_find_sector_slot.
  destruct (sector_lookup_present node _ Hslot) as [l Hl].
  rewrite Hl. change (default [] (Some l)) with l.
  destruct (sector_members_store node _ _ H1 Hl) as (pre & post & Em & Es).
  split; cbn [put_sectors put_svEntity sv_worldSectors].
  - now rewrite sector_slots_store.
  - now apply sector_axes_store.
  - rewrite Es. rewrite Em in H3, Hnot.
    apply Permutation_NoDup with (l := num :: pre ++ l ++ post).
    + cbn. apply Permutation_middle.
    + now constructor.
  - intros e k. unfold SV_SvEntityForGentityMapper, put_sectors, put_svEntity.
    cbn [svEntities].
    destruct (Z.eq_dec num e) as [<- | Hne].
    + rewrite lookup_insert_eq. cbn. rewrite Hsv. split.
      * intros [= <-]. rewrite sector_lookup_store_same by exact Hslot.
        eexists. split; [reflexivity | now left].
      * intros (l' & Hk & He). destruct (Z.eq_dec node k) as [<- | Hk'];
          [reflexivity|]. exfalso.
        rewrite sector_lookup_store_other in Hk by exact Hk'.
        assert (E : worldSector (SV_SvEntityForGentityMapper w num) = Some k)
          by (apply H4; eauto).
        congruence.
    + rewrite lookup_insert_ne by exact Hne.
      change (default zero_svEntity (svEntities w !! e))
        with (SV_SvEntityForGentityMapper w e).
      rewrite H4. destruct (Z.eq_dec node k) as [<- | Hk'].
      * rewrite sector_lookup_store_same by exact Hslot. rewrite Hl.
        split; intros (l' & [= <-] & He); eexists; (split; [reflexivity|]).
        -- now right.
        -- destruct He as [He | He]; [contradiction | exact He].
      * now rewrite sector_lookup_store_other by exact Hk'.
  - apply sector_placed_link; auto.
Qed.
End Registry.

Section Reachable.
Context {F : Type} {ops : FloatOps F} (K : Constants) (O : Oracles F).
Implicit Types (w : world F) (num e k : Z).

(** [SV_LinkEntity] keeps the registry. *)
Lemma world_inv_link w num :
  world_inv w -> world_inv (SV_LinkEntity K O num w).
Proof.
  intros Hi. unfold SV_LinkEntity.
  set (w1 := match worldSector (SV_SvEntityForGentityMapper w num) with
             | Some _ => SV_UnlinkEntity num w
             | None => w
             end).
  assert (Hi1 : world_inv w1).
  { subst w1. destruct (worldSector _); [now apply world_inv_unlink | exact Hi]. }
  assert (Hn1 : worldSector (SV_SvEntityForGentityMapper w1 num) = None).
  { subst w1. destruct (worldSector _) eqn:E;
      [apply SV_UnlinkEntity_worldSector | exact E]. }
  clearbody w1. clear w Hi.
  pose proof (unlinked_not_member w1 num Hi1 Hn1) as Hnot.
  destruct (link_absbox O _) as [lo hi].
  destruct (CM_BoxLeafnums O lo hi MAX_TOTAL_ENT_LEAFS) as [leafs lastLeaf].
  destruct (Z.of_nat (length leafs) =? 0).
  - apply world_inv_put_svEntity.
    + apply world_inv_put_gentity; [exact Hi1 | intros H; contradiction].
    + reflexivity.
  - destruct (link_areas O leafs) as [a1 a2].
    destruct (link_clusters K O leafs []) as [clusters broke].
    match goal with
    | |- world_inv (put_gentity num ?g (put_svEntity num ?sv
                                          (put_sectors ?t w1))) =>
      set (gfinal := g); set (svfinal := sv);
        assert (Hi2 : world_inv (put_gentity num gfinal w1))
        by (apply world_inv_put_gentity;
            [exact Hi1 | intros H; contradiction]);
        pose proof (world_inv_chain (put_gentity num gfinal w1) num svfinal
                                    Hi2 Hn1) as Hc
    end.
    cbv zeta in Hc. rewrite entity_box_put_same in Hc.
    apply Hc. reflexivity.
Qed.

(** Writes of the game keep the registry. *)
Lemma world_inv_game w num (g : sharedEntityMapper_t F) :
  world_inv w -> world_inv (game_write num g w).
Proof.
  intros Hi. unfold game_write. apply world_inv_put_gentity; [exact Hi|].
  intros _. reflexivity.
Qed.

Lemma world_inv_run_ops (l : list world_op) :
  forall w, world_inv w -> world_inv (run_ops K O l w).
Proof.
  induction l as [|op l IH]; intros w Hi; [exact Hi|].
  cbn. apply IH. destruct op; cbn.
  - now apply world_inv_link.
  - now apply world_inv_unlink.
  - now apply world_inv_game.
Qed.

(** A tree as [SV_CreateworldSector] makes it has no entity. *)
Lemma sector_shape_empty (depth : Z) (lo hi : vec3_t F) (t : worldSector_t F) :
  sector_shape depth lo hi t ->
  sector_axes t /\ sector_members t = []
  /\ forall box cs, sector_placed box cs t.
Proof.
  revert depth lo hi.
  induction t as [k0 d l0 | k0 a d c0 IH0 c1 IH1 l0]; cbn; intros depth lo hi.
  - intros [_ ->]. repeat split; try (intros box cs e c []).
  - intros (_ & -> & Ha & _ & _ & S0 & S1).
    destruct (IH0 _ _ _ S0) as (A0 & M0 & P0).
    destruct (IH1 _ _ _ S1) as (A1 & M1 & P1).
    rewrite M0, M1. repeat split; auto; try (intros e c []).
Qed.

(** The registry holds at the start of a level. *)
Lemma world_inv_start {laws : FloatLaws ops} (w0 : world F) :
  server_start O = Some w0 -> world_inv w0.
Proof.
  unfold server_start, SV_ClearWorld.
  destruct (CM_WorldBounds O) as [lo hi].
  destruct (SV_CreateworldSector_levels 4 (Z.to_nat AREA_NODES) lo hi 0)
    as (t & E & S & C & L);
    [lia | unfold AREA_NODES; lia | lia | unfold nodes_below, AREA_NODES; simpl; lia |].
  change (AREA_DEPTH - Z.of_nat 4) with 0 in *. rewrite E.
  intros [= <-].
  destruct (sector_shape_empty _ _ _ _ S) as (Ha & Hm & Hp).
  split; cbn [sv_worldSectors zero_world].
  - rewrite L. apply NoDup_ListNoDup, NoDup_seqZ.
  - exact Ha.
  - rewrite Hm. constructor.
  - intros e k. unfold SV_SvEntityForGentityMapper. cbn [svEntities zero_world].
    rewrite lookup_empty. cbn. split; [discriminate|].
    intros (l & Hl & He). exfalso.
    pose proof (sector_lookup_members k l e t Hl He) as Hin.
    now rewrite Hm in Hin.
  - apply Hp.
Qed.
End Reachable.

Section Pruning.
Context {F : Type} {ops : FloatOps F} {laws : FloatLaws ops}.
Implicit Types (w : world F) (num e k : Z).

Lemma area_disjoint_above (g : sharedEntityMapper_t F) (lo hi : vec3_t F)
      (axis : Z) :
  axis = 0 \/ axis = 1 ->
  fgtb (vget (absmin (r g)) axis) (vget hi axis) = true ->
  area_disjoint g lo hi = true.
Proof.
  unfold area_disjoint. intros [-> | ->]; cbn; intros ->;
    rewrite ?orb_true_r; reflexivity.
Qed.

Lemma area_disjoint_below (g : sharedEntityMapper_t F) (lo hi : vec3_t F)
      (axis : Z) :
  axis = 0 \/ axis = 1 ->
  fltb (vget (absmax (r g)) axis) (vget lo axis) = true ->
  area_disjoint g lo hi = true.
Proof.
  unfold area_disjoint. intros [-> | ->]; cbn; intros ->;
    rewrite ?orb_true_r; reflexivity.
Qed.

Lemma filter_none {A : Type} (f : A -> bool) (l : list A) :
  (forall x, In x l -> f x = false) -> List.filter f l = [].
Proof.
  induction l as [|x l IH]; cbn; intros H; [reflexivity|].
  rewrite (H x) by now left. apply IH. intros y Hy. apply H. now right.
Qed.

(** The subtrees that [SV_AreaEntities_r] does not enter hold no entity
    that meets the box: the walk meets every member that does. *)
Lemma area_walk_members w (lo hi : vec3_t F) (t : worldSector_t F) :
  forall cs,
    sector_axes t -> sector_placed (entity_box w) cs t ->
    area_walk w lo hi t = List.filter (area_hit w lo hi) (sector_members t).
Proof.
  induction t as [k0 d l0 | k0 a d c0 IH0 c1 IH1 l0]; intros cs;
    cbn [area_walk sector_members sector_axes sector_placed sector_entities].
  - intros _ _. now rewrite app_nil_r.
  - intros (Ha & A0 & A1) (Hl & P0 & P1).
    assert (Ea : (a =? -1) = false) by (destruct Ha as [-> | ->]; reflexivity).
    rewrite Ea, !filter_app. f_equal. f_equal.
    + destruct (fgtb (vget hi a) d) eqn:Eg; [now apply (IH0 _ A0 P0)|].
      symmetry. apply filter_none. intros x Hx. unfold area_hit.
      apply negb_false_iff. apply area_disjoint_above with (axis := a);
        [exact Ha|].
      apply fgtb_above with (d := d); [|exact Eg].
      apply (sector_placed_members _ _ _ x (SideAbove a d) P0);
        [now left | exact Hx].
    + destruct (fltb (vget lo a) d) eqn:El; [now apply (IH1 _ A1 P1)|].
      symmetry. apply filter_none. intros x Hx. unfold area_hit.
      apply negb_false_iff. apply area_disjoint_below with (axis := a);
        [exact Ha|].
      apply fltb_below with (d := d); [|exact El].
      apply (sector_placed_members _ _ _ x (SideBelow a d) P1);
        [now left | exact Hx].
Qed.

(** The test of the code is the intersection of the closed boxes. *)
Lemma area_hit_in_box w (lo hi : vec3_t F) e :
  area_hit w lo hi e = entity_in_box w lo hi e.
Proof.
  unfold area_hit, area_disjoint, entity_in_box, boxes_intersect.
  rewrite !fgtb_fltb, !fleb_fltb.
  repeat match goal with |- context [fltb ?a ?b] =>
    destruct (fltb a b) end; reflexivity.
Qed.

Lemma map_fst_fmap {A B : Type} (l : list (A * B)) : List.map fst l = l.*1.
Proof. induction l as [|x l IH]; cbn; [reflexivity | now rewrite IH]. Qed.

Lemma NoDup_map_filter {A B : Type} (f : A -> B) (p : A -> bool) (l : list A) :
  NoDup (List.map f l) -> NoDup (List.map f (List.filter p l)).
Proof.
  induction l as [|x l IH]; cbn; intros H; [constructor|].
  apply NoDup_cons_iff in H as [Hx H].
  destruct (p x); cbn; [|now apply IH].
  constructor; [|now apply IH].
  intros Hin. apply Hx. apply in_map_iff in Hin as (y & <- & Hy).
  apply in_map. now apply filter_In in Hy.
Qed.

Lemma NoDup_linked_entities w : NoDup (linked_entities w).
Proof.
  unfold linked_entities. apply NoDup_map_filter.
  rewrite map_fst_fmap. apply NoDup_ListNoDup, NoDup_fst_map_to_list.
Qed.

Lemma In_linked_entities w e : In e (linked_entities w) <-> entity_linked w e.
Proof.
  unfold linked_entities, entity_linked, SV_SvEntityForGentityMapper.
  rewrite in_map_iff. split.
  - intros ([e' sv] & <- & H). apply filter_In in H as [H Hs].
    apply list_elem_of_In, elem_of_map_to_list in H. cbn in *. rewrite H. cbn.
    destruct (worldSector sv); [discriminate | discriminate].
  - intros H. destruct (svEntities w !! e) as [sv|] eqn:E; cbn in H;
      [|contradiction].
    exists (e, sv). split; [reflexivity|]. apply filter_In. split.
    + now apply list_elem_of_In, elem_of_map_to_list.
    + cbn. destruct (worldSector sv); [reflexivity | contradiction].
Qed.

(** The entities chained in the tree are the linked entities. *)
Lemma members_linked w e :
  world_inv w ->
  In e (sector_members (sv_worldSectors w)) <-> entity_linked w e.
Proof.
  intros Hi. unfold entity_linked. split.
  - intros H. destruct (sector_members_lookup e _ (inv_slots w Hi) H)
      as (k & l & Hl & He).
    assert (E : worldSector (SV_SvEntityForGentityMapper w e) = Some k)
      by (apply (inv_link w Hi); eauto).
    congruence.
  - intros H.
    destruct (worldSector (SV_SvEntityForGentityMapper w e)) as [k|] eqn:E;
      [|contradiction].
    apply (inv_link w Hi) in E as (l & Hl & He).
    eapply sector_lookup_members; eauto.
Qed.

Lemma NoDup_same_length (l1 l2 : list Z) :
  NoDup l1 -> NoDup l2 -> (forall x, In x l1 <-> In x l2) ->
  length l1 = length l2.
Proof.
  intros H1 H2 H. apply Nat.le_antisymm; apply NoDup_incl_length; auto;
    intros x Hx; now apply H.
Qed.

(** What [SV_AreaEntities] returns in a world that keeps the registry. *)
Lemma SV_AreaEntities_inv w (lo hi : vec3_t F) (maxcount : Z) :
  world_inv w ->
  let res := SV_AreaEntities w lo hi maxcount in
  (0 <= maxcount -> fst res <= maxcount)
  /\ (overlap_count w lo hi <= maxcount ->
      fst res = Z.of_nat (length (snd res))
      /\ fst res = overlap_count w lo hi
      /\ NoDup (snd res)
      /\ forall e, In e (snd res)
                   <-> entity_linked w e /\ entity_in_box w lo hi e = true).
Proof.
  intros Hi res. subst res. unfold SV_AreaEntities. cbn [fst snd].
  set (ap0 := {| ap_mins := lo; ap_maxs := hi; ap_list := [];
                 ap_count := 0; ap_maxcount := maxcount |}).
  split.
  - intros Hm. destruct (SV_AreaEntities_r_bound w (sv_worldSectors w) ap0)
      as (_ & _ & _ & H). now apply H.
  - intros Hroom.
    pose proof (area_walk_members w lo hi (sv_worldSectors w) []
                                  (inv_axes w Hi) (inv_placed w Hi)) as Ew.
    assert (Hnd : NoDup (area_walk w lo hi (sv_worldSectors w))).
    { rewrite Ew. apply List.NoDup_filter, (inv_members w Hi). }
    assert (Hin : forall e, In e (area_walk w lo hi (sv_worldSectors w))
                            <-> entity_linked w e
                                /\ entity_in_box w lo hi e = true).
    { intros e. rewrite Ew, filter_In, area_hit_in_box.
      now rewrite (members_linked w e Hi). }
    assert (Hlen : Z.of_nat (length (area_walk w lo hi (sv_worldSectors w)))
                   = overlap_count w lo hi).
    { unfold overlap_count. f_equal. apply NoDup_same_length.
      - exact Hnd.
      - apply List.NoDup_filter, NoDup_linked_entities.
      - intros x. rewrite Hin, filter_In, In_linked_entities. tauto. }
    rewrite SV_AreaEntities_r_room
      by (subst ap0; cbn [ap_count ap_mins ap_maxs ap_maxcount]; lia).
    subst ap0. cbn [ap_extend ap_count ap_list ap_mins ap_maxs app].
    rewrite Z.add_0_l.
    split; [reflexivity|]. split; [exact Hlen|]. split; [exact Hnd|].
    exact Hin.
Qed.
End Pruning.

(** C1 (amended). In every state reached from the start of a level by
    linking, unlinking and writes of the game, [SV_AreaEntities] returns
    a count that does not exceed a non-negative [maxcount]; and when the
    linked entities whose box meets the box of the query are at most
    [maxcount] (in particular when they are fewer), the list returned
    holds exactly those entities, each once, whatever sector each is
    chained in: the linked entities whose [absmin .. absmax] meets the
    closed box [mins .. maxs] on the three axes. *)
Theorem C1_area_entities_exact
        {F : Type} {ops : FloatOps F} {laws : FloatLaws ops}
        (K : Constants) (O : Oracles F) (w0 : world F)
        (l : list world_op) (lo hi : vec3_t F) (maxcount : Z) :
  server_start O = Some w0 ->
  let w := run_ops K O l w0 in
  let res := SV_AreaEntities w lo hi maxcount in
  (0 <= maxcount -> fst res <= maxcount)
  /\ (overlap_count w lo hi <= maxcount ->
      fst res = Z.of_nat (length (snd res))
      /\ fst res = overlap_count w lo hi
      /\ NoDup (snd res)
      /\ forall e, In e (snd res)
                   <-> entity_linked w e /\ entity_in_box w lo hi e = true).
Proof.
  intros Hs w. apply SV_AreaEntities_inv.
  apply world_inv_run_ops. now apply (world_inv_start O).
Qed.

Lemma C1_area_entities_exact_witness :
  match server_start (demo_oracles None) with
  | Some w0 =>
    let w := run_ops jka_constants (demo_oracles None)
                     [OpGame 1 (demo_box 1 1023 50%Q 5%Q); OpLink 1;
                      OpGame 2 (demo_box 2 1023 200%Q 5%Q); OpLink 2;
                      OpGame 3 (demo_box 3 1023 60%Q 5%Q); OpLink 3;
                      OpUnlink 3] w0 in
    let res := SV_AreaEntities w (Vec3 0%Q (-10)%Q (-10)%Q)
                               (Vec3 100%Q 10%Q 10%Q) 1024 in
    res = (1, [1])
    /\ forall e, e = 1 <-> entity_linked w e
                           /\ entity_in_box w (Vec3 0%Q (-10)%Q (-10)%Q)
                                            (Vec3 100%Q 10%Q 10%Q) e = true
  | None => False
  end.
Proof.
  destruct (server_start (demo_oracles None)) as [w0|] eqn:Hw;
    [|vm_compute in Hw; discriminate].
  cbv zeta.
  destruct (@C1_area_entities_exact Q Q_ops Q_laws jka_constants
              (demo_oracles None) w0
              [OpGame 1 (demo_box 1 1023 50%Q 5%Q); OpLink 1;
               OpGame 2 (demo_box 2 1023 200%Q 5%Q); OpLink 2;
               OpGame 3 (demo_box 3 1023 60%Q 5%Q); OpLink 3;
               OpUnlink 3]
              (Vec3 0%Q (-10)%Q (-10)%Q) (Vec3 100%Q 10%Q 10%Q) 1024 Hw)
    as [_ H].
  destruct H as (_ & _ & _ & Hin); [by_evaluation Hw|].
  assert (E : SV_AreaEntities
                (run_ops jka_constants (demo_oracles None)
                   [OpGame 1 (demo_box 1 1023 50%Q 5%Q); OpLink 1;
                    OpGame 2 (demo_box 2 1023 200%Q 5%Q); OpLink 2;
                    OpGame 3 (demo_box 3 1023 60%Q 5%Q); OpLink 3;
                    OpUnlink 3] w0)
                (Vec3 0%Q (-10)%Q (-10)%Q) (Vec3 100%Q 10%Q 10%Q) 1024
              = (1, [1])) by by_evaluation Hw.
  split; [exact E|].
  intros e. rewrite <- Hin, E. cbn. intuition.
Defined.

(** The claim C1 for a negative [maxcount]: in the world at the start
    of a level, where no entity is linked, the count returned is 0, which
    is above a [maxcount] of -1. *)
Lemma C1_negative_maxcount :
  match server_start (demo_oracles None) with
  | Some w0 =>
    let res := SV_AreaEntities w0 (Vec3 0%Q 0%Q 0%Q) (Vec3 0%Q 0%Q 0%Q) (-1) in
    fst res = 0 /\ ~ fst res <= -1
  | None => False
  end.
Proof.
  destruct (server_start (demo_oracles None)) as [w0|] eqn:Hw;
    [|vm_compute in Hw; discriminate].
  vm_compute in Hw. injection Hw as <-.
  split; [reflexivity|]. vm_compute. intros H. now apply H.
Qed.
